(** * Subtitle conversion to WebVTT: [backend/download_subtitle.py]

    A shallow embedding of [ass_to_vtt], [srt_to_vtt] and [convert_to_vtt],
    and the properties the specification states about them.

    A Python [str] is modelled by a [string] of the Standard Library: a
    sequence of characters with code points below 256.  Whitespace
    ([str.strip]), case mapping ([str.lower]) and decimal digits (the
    pattern [\d]) are Python's on that range.  Python integers are
    unbounded; [int] and the [02d] format are modelled on [N], without the
    limit an interpreter may put on the length of a decimal conversion.

    The loops that append to [vtt_lines] are folds over the lines or the
    blocks; [continue] leaves the accumulated state as it is and [break]
    ends the fold. *)

From Stdlib Require Import String Ascii List NArith ZArith Lia.
From Stdlib Require Import DecimalString DecimalN Sorted.
From stdpp Require Import base option list gmap strings.

Local Open Scope string_scope.
Local Open Scope list_scope.

#[local] Arguments String.append : simpl nomatch.

(** ** Python string operations *)

Module PyStr.

Definition LF : ascii := ascii_of_nat 10.
Definition NL : string := String LF "".

Definition between (lo hi : nat) (c : ascii) : bool :=
  (lo <=? nat_of_ascii c)%nat && (nat_of_ascii c <=? hi)%nat.

(** [str.isspace] for one character: TAB..CR, FS..US, space, NEL, NBSP. *)
Definition isspace (c : ascii) : bool :=
  between 9 13 c || between 28 32 c || between 133 133 c || between 160 160 c.

(** The pattern [\d]: below 256 the decimal digits are the ASCII ones. *)
Definition isdigit (c : ascii) : bool := between 48 57 c.

(** [str.lower] for one character: A..Z and the Latin-1 capitals. *)
Definition tolower (c : ascii) : ascii :=
  if between 65 90 c || between 192 214 c || between 216 222 c
  then ascii_of_nat (nat_of_ascii c + 32)
  else c.

Fixpoint lower (s : string) : string :=
  match s with
  | "" => ""
  | String c s' => String (tolower c) (lower s')
  end.

Fixpoint lstrip (s : string) : string :=
  match s with
  | "" => ""
  | String c s' => if isspace c then lstrip s' else s
  end.

Fixpoint rstrip (s : string) : string :=
  match s with
  | "" => ""
  | String c s' =>
      match rstrip s' with
      | "" => if isspace c then "" else String c ""
      | r => String c r
      end
  end.

(** [s.strip()] *)
Definition strip (s : string) : string := rstrip (lstrip s).

(** [s.startswith(p)] *)
Definition startswith (p s : string) : bool := String.prefix p s.

(** [p in s] *)
Fixpoint contains (p s : string) : bool :=
  String.prefix p s ||
  match s with
  | "" => false
  | String _ s' => contains p s'
  end.

(** [s[n:]] *)
Fixpoint slice_from (n : nat) (s : string) : string :=
  match n, s with
  | O, _ => s
  | S _, "" => ""
  | S n', String _ s' => slice_from n' s'
  end.

(** Puts a character in front of the first piece of a split. *)
Definition cons_head (c : ascii) (ws : list string) : list string :=
  match ws with
  | [] => [String c ""]
  | w :: ws' => String c w :: ws'
  end.

(** [s.split(sep)] for a one-character separator. *)
Fixpoint split (sep : ascii) (s : string) : list string :=
  match s with
  | "" => [""]
  | String c s' =>
      if Ascii.eqb c sep then "" :: split sep s'
      else cons_head c (split sep s')
  end.

(** [s.split(sep, maxsplit)] for a one-character separator and
    [maxsplit >= 0]. *)
Fixpoint split_max (sep : ascii) (s : string) (maxsplit : nat) : list string :=
  match maxsplit with
  | O => [s]
  | S m =>
      match s with
      | "" => [""]
      | String c s' =>
          if Ascii.eqb c sep then "" :: split_max sep s' m
          else cons_head c (split_max sep s' maxsplit)
      end
  end.

(** [sep.join(l)] *)
Fixpoint join (sep : string) (l : list string) : string :=
  match l with
  | [] => ""
  | [x] => x
  | x :: xs => x +:+ sep +:+ join sep xs
  end.

(** [s.replace(a, b)] for one-character [a] and [b]. *)
Fixpoint replace_char (a b : ascii) (s : string) : string :=
  match s with
  | "" => ""
  | String c s' => String (if Ascii.eqb c a then b else c) (replace_char a b s')
  end.

(** [s.replace(a1 a2, b)] for a two-character pattern with [a1 <> a2]
    and a one-character replacement: leftmost, non-overlapping. *)
Fixpoint replace_pair (a1 a2 b : ascii) (s : string) : string :=
  match s with
  | "" => ""
  | String c t =>
      match t with
      | String d u =>
          if Ascii.eqb c a1 && Ascii.eqb d a2
          then String b (replace_pair a1 a2 b u)
          else String c (replace_pair a1 a2 b t)
      | "" => String c ""
      end
  end.

(** [re.split(r'\n\n+', s)]: the pieces between maximal runs of two or
    more line feeds.  [in_run] holds while the rest of a run is skipped. *)
Fixpoint re_split_blank (in_run : bool) (s : string) : list string :=
  match s with
  | "" => [""]
  | String c s' =>
      if Ascii.eqb c LF then
        if in_run then re_split_blank true s'
        else if startswith NL s' then "" :: re_split_blank true s'
        else cons_head c (re_split_blank false s')
      else cons_head c (re_split_blank false s')
  end.

(** [re.sub(r'\{[^}]*\}', '', s)]: an opening brace starts a match exactly
    when a closing brace follows somewhere; the match ends at the first
    one.  [inside] holds while a match is being skipped. *)
Fixpoint re_sub_braces (inside : bool) (s : string) : string :=
  match s with
  | "" => ""
  | String c s' =>
      if inside then
        if Ascii.eqb c "}" then re_sub_braces false s'
        else re_sub_braces true s'
      else if Ascii.eqb c "{" && contains "}" s' then re_sub_braces true s'
      else String c (re_sub_braces false s')
  end.

(** [int(h)] for a string of decimal digits. *)
Definition int (h : string) : N :=
  match NilEmpty.uint_of_string h with
  | Some u => N.of_uint u
  | None => 0%N
  end.

(** [str(n)] *)
Definition str (n : N) : string := NilEmpty.string_of_uint (N.to_uint n).

(** The format [f"{n:02d}"]: decimal, zero-padded to width two. *)
Definition format_02d (n : N) : string :=
  let s := str n in
  if (String.length s <? 2)%nat then "0" +:+ s else s.

End PyStr.

Import PyStr.

(** ** ASS timestamps *)

(** The longest run of digits at the start of [s], and what follows it. *)
Fixpoint span_digits (s : string) : string * string :=
  match s with
  | "" => ("", "")
  | String c s' =>
      if isdigit c
      then let '(d, r) := span_digits s' in (String c d, r)
      else ("", s)
  end.

(** [\d{2}] at the start of [s]. *)
Definition two_digits (s : string) : option (string * string) :=
  match s with
  | String a (String b r) =>
      if isdigit a && isdigit b then Some (String a (String b ""), r) else None
  | _ => None
  end.

(** One literal character at the start of [s]. *)
Definition expect (c : ascii) (s : string) : option string :=
  match s with
  | String d r => if Ascii.eqb d c then Some r else None
  | "" => None
  end.

(** [re.match(r'(\d+):(\d{2}):(\d{2})\.(\d{2})', ts)]: the four groups of a
    match anchored at the start of [ts].  After the longest run of digits
    the next character is not a digit, so no shorter run can be followed by
    the colon: the greedy choice is the only one. *)
Definition match_timestamp (ts : string)
  : option (string * string * string * string) :=
  let '(h, r) := span_digits ts in
  if String.eqb h "" then None else
  r ← expect ":" r;
  '(m, r) ← two_digits r;
  r ← expect ":" r;
  '(s, r) ← two_digits r;
  r ← expect "." r;
  '(cs, _) ← two_digits r;
  Some (h, m, s, cs).

Definition convert_timestamp (ts : string) : string :=
  match match_timestamp ts with
  | Some (h, m, s, cs) =>
      format_02d (int h) +:+ ":" +:+ m +:+ ":" +:+ s +:+ "." +:+ cs +:+ "0"
  | None => ts
  end.

(** ** [ass_to_vtt] *)

(** [dict(zip(keys, values))]: a later pair replaces an earlier one with
    the same key. *)
Definition dict_zip (keys values : list string) : gmap string string :=
  foldl (fun d kv => <[kv.1 := kv.2]> d) ∅ (zip keys values).

(** [d.get(k, '')] *)
Definition dict_get (d : gmap string string) (k : string) : string :=
  default "" (d !! k).

(** The column names of a [Format:] line. *)
Definition parse_format (line : string) : list string :=
  map (fun f => lower (strip f)) (split "," (strip (slice_from 7 line))).

(** The text of a row after tag removal and line-break substitution. *)
Definition clean_text (text : string) : string :=
  replace_pair "\" "n" LF (replace_pair "\" "N" LF (re_sub_braces false text)).

(** The lines one [Dialogue:] row appends to the output under the schema
    [fmt]: none when the row is skipped. *)
Definition ass_dialogue (fmt : list string) (line : string) : list string :=
  let parts := split_max "," (slice_from 9 line) (length fmt - 1) in
  if (length parts <? length fmt)%nat then [] else
  let dialogue := dict_zip fmt parts in
  let start := dict_get dialogue "start" in
  let end_ := dict_get dialogue "end" in
  let text := dict_get dialogue "text" in
  if String.eqb start "" || String.eqb end_ "" || String.eqb text "" then [] else
  let vtt_start := convert_timestamp start in
  let vtt_end := convert_timestamp end_ in
  let text := clean_text text in
  if String.eqb (strip text) "" then []
  else [vtt_start +:+ " --> " +:+ vtt_end; strip text; ""].

(** The variables of the loop over the lines. *)
Record ass_state := {
  in_events : bool;
  format_line : option (list string);
  vtt_lines : list string
}.

Inductive flow :=
| Continue (st : ass_state)
| Break (st : ass_state).

Definition final (f : flow) : ass_state :=
  match f with Continue st | Break st => st end.

(** One iteration of the loop body. *)
Definition ass_step (st : ass_state) (raw : string) : flow :=
  let line := strip raw in
  if String.eqb (lower line) "[events]" then
    Continue {| in_events := true;
                format_line := format_line st;
                vtt_lines := vtt_lines st |}
  else if startswith "[" line && in_events st then Break st
  else if in_events st then
    if startswith "format:" (lower line) then
      Continue {| in_events := in_events st;
                  format_line := Some (parse_format line);
                  vtt_lines := vtt_lines st |}
    else if startswith "dialogue:" (lower line) then
      match format_line st with
      | None | Some [] => Continue st
      | Some fmt =>
          Continue {| in_events := in_events st;
                      format_line := format_line st;
                      vtt_lines := vtt_lines st ++ ass_dialogue fmt line |}
      end
    else Continue st
  else Continue st.

Fixpoint ass_loop (st : ass_state) (lines : list string) : flow :=
  match lines with
  | [] => Continue st
  | raw :: rest =>
      match ass_step st raw with
      | Continue st' => ass_loop st' rest
      | Break st' => Break st'
      end
  end.

Definition ass_init : ass_state :=
  {| in_events := false; format_line := None; vtt_lines := ["WEBVTT"; ""] |}.

(** The list [vtt_lines] when the loop is left. *)
Definition ass_lines (ass_content : string) : list string :=
  vtt_lines (final (ass_loop ass_init (split LF ass_content))).

Definition ass_to_vtt (ass_content : string) : string :=
  join NL (ass_lines ass_content).

(** ** [srt_to_vtt] *)

Definition is_timestamp (line : string) : bool :=
  contains "-->" line && contains "," line.

(** The inner loop: the first timestamp line, with [text_start]. *)
Fixpoint find_timestamp (i : nat) (lines : list string) : option (string * nat) :=
  match lines with
  | [] => None
  | line :: rest =>
      if is_timestamp line then Some (line, S i)
      else find_timestamp (S i) rest
  end.

(** The lines one block appends to the output: none when it is skipped. *)
Definition srt_block (block : string) : list string :=
  let lines := split LF (strip block) in
  if (length lines <? 2)%nat then [] else
  match find_timestamp 0 lines with
  | None => []
  | Some (timestamp_line, text_start) =>
      if String.eqb timestamp_line "" then [] else
      let vtt_timestamp := replace_char "," "." timestamp_line in
      let text_lines := drop text_start lines in
      match text_lines with
      | [] => []
      | _ => vtt_timestamp :: text_lines ++ [""]
      end
  end.

Definition srt_blocks (srt_content : string) : list string :=
  re_split_blank false (strip srt_content).

Definition srt_lines (srt_content : string) : list string :=
  foldl (fun vtt block => vtt ++ srt_block block) ["WEBVTT"; ""]
        (srt_blocks srt_content).

Definition srt_to_vtt (srt_content : string) : string :=
  if String.eqb srt_content "" then "WEBVTT" +:+ NL +:+ NL
  else join NL (srt_lines srt_content).

(** ** [convert_to_vtt] *)

Definition is_ass (content : string) : bool :=
  contains "[Script Info]" content
  || contains "[V4+ Styles]" content
  || contains "[Events]" content.

Definition convert_to_vtt (content : string) : string :=
  if String.eqb content "" then "WEBVTT" +:+ NL +:+ NL
  else if is_ass content then ass_to_vtt content
  else srt_to_vtt content.

(** * The language table of the two scripts

    [main] of [download_subtitle.py] and [main] of [search_subtitles.py]
    both turn the two-letter code of the request into the three-letter
    code the subtitle library wants, each with a table of its own. *)

(** [lang_map] of [download_subtitle.py]. *)
Definition lang_map_download : gmap string string :=
  list_to_map
    [("en", "eng"); ("es", "spa"); ("fr", "fra"); ("de", "deu"); ("it", "ita");
     ("pt", "por"); ("nl", "nld"); ("pl", "pol"); ("ru", "rus"); ("ja", "jpn");
     ("ko", "kor"); ("zh", "zho"); ("ar", "ara"); ("he", "heb"); ("sv", "swe");
     ("no", "nor"); ("da", "dan"); ("fi", "fin"); ("tr", "tur"); ("el", "ell");
     ("hu", "hun"); ("cs", "ces"); ("ro", "ron"); ("th", "tha"); ("vi", "vie")].

(** [lang_map] of [search_subtitles.py]. *)
Definition lang_map_search : gmap string string :=
  list_to_map
    [("en", "eng"); ("es", "spa"); ("fr", "fra"); ("de", "deu"); ("it", "ita");
     ("pt", "por"); ("nl", "nld"); ("pl", "pol"); ("ru", "rus"); ("ja", "jpn");
     ("ko", "kor"); ("zh", "zho"); ("ar", "ara"); ("he", "heb"); ("sv", "swe");
     ("no", "nor"); ("da", "dan"); ("fi", "fin"); ("tr", "tur"); ("el", "ell");
     ("hu", "hun"); ("cs", "ces"); ("ro", "ron"); ("th", "tha"); ("vi", "vie");
     ("hr", "hrv"); ("sr", "srp"); ("bs", "bos")].

(** [lang_code = lang_map.get(language, language)] *)
Definition lang_code (lang_map : gmap string string) (language : string) : string :=
  default language (lang_map !! language).

(** * The results of a search: [search_subtitles.py] *)

(** One entry of [results]. *)
Record search_result := {
  result_id : string;
  provider : string;
  language : string;
  release : string;
  downloads : Z;
  hearing_impaired : bool;
  page_link : string
}.

(** Where [x] goes among results that are in descending order already:
    before the first one that has no more downloads than [x]. *)
Fixpoint insert_result (x : search_result) (l : list search_result)
  : list search_result :=
  match l with
  | [] => [x]
  | y :: l' =>
      if (downloads y <=? downloads x)%Z then x :: l
      else y :: insert_result x l'
  end.

(** [results.sort(key=lambda x: x.get('downloads', 0), reverse=True)]:
    the sort of Python is stable, also when reversed, so its result is
    the one of a stable insertion in descending order. *)
Definition sort_results (results : list search_result) : list search_result :=
  foldr insert_result [] results.

(** * Settings by path: [admin/app.py] *)

Module Admin.

(** A value read by [json.load]; [JNull] is Python's [None], and a number
    is kept as the text that denotes it. *)
#[warnings="-register-all"] Inductive json :=
| JNull
| JBool (b : bool)
| JNum (literal : string)
| JStr (s : string)
| JArr (items : list json)
| JObj (members : gmap string json).

Definition empty_dict : json := JObj ∅.

Definition is_dict (data : json) : bool :=
  match data with JObj _ => true | _ => false end.

(** The loop of [get_value_from_path] over the keys. *)
Fixpoint get_keys (data : json) (keys : list string) : json :=
  match keys with
  | [] => data
  | key :: rest =>
      match data with
      | JObj members => get_keys (default empty_dict (members !! key)) rest
      | _ => JNull
      end
  end.

Definition get_value_from_path (data : json) (path : string) : json :=
  get_keys data (split "." path).

(** [set_value_at_path] over the keys, as a function of the settings: the
    settings after the assignment, or [None] when the code raises, which
    it does as soon as it has to index a value that is not a dict (and
    would on [keys[-1]] for no keys at all). *)
Fixpoint set_keys (data : json) (keys : list string) (value : json)
  : option json :=
  match keys with
  | [] => None
  | key :: rest =>
      match data with
      | JObj members =>
          match rest with
          | [] => Some (JObj (<[key := value]> members))
          | _ =>
              child ← set_keys (default empty_dict (members !! key)) rest value;
              Some (JObj (<[key := child]> members))
          end
      | _ => None
      end
  end.

Definition set_value_at_path (data : json) (path : string) (value : json)
  : option json :=
  set_keys data (split "." path) value.

(** [load_settings]: the content of the file, or an empty dict when there
    is no file or it does not parse. *)
Definition load_settings (file : option json) : json :=
  default empty_dict file.

(** [save_settings]: whether the write succeeded, and the file after it;
    what [json.dump] has written, [json.load] reads back as it was. *)
Definition save_settings (writable : bool) (settings : json)
    (file : option json) : bool * option json :=
  if writable then (true, Some settings) else (false, file).

(** The body of an answer, as far as it is told apart here: a value, the
    success flag alone, an error with a fixed text, or the text of the
    exception that was caught. *)
Inductive body :=
| Value (v : json)
| Success
| Failure (error : string)
| Raised.

(** [api_get_section]: status and body. *)
Definition api_get_section (file : option json) (section : string)
  : nat * body :=
  match get_value_from_path (load_settings file) section with
  | JNull => (404, Failure "Section not found")
  | value => (200, Value value)
  end.

(** [api_put_section]: status and body, and the file after the request. *)
Definition api_put_section (writable : bool) (file : option json)
    (section : string) (request_json : json) : (nat * body) * option json :=
  match set_value_at_path (load_settings file) section request_json with
  | None => ((400, Raised), file)
  | Some settings =>
      let '(saved, file') := save_settings writable settings file in
      if saved then ((200, Success), file')
      else ((500, Failure "Failed to save settings"), file')
  end.

End Admin.

(** * The vocabulary of the properties *)

(** ** Texts *)

(** [q] occurs in [s]: the meaning of Python's [q in s]. *)
Definition occurs_in (q s : string) : Prop :=
  exists a b, s = a +:+ q +:+ b.

Definition leading_space (s : string) : bool :=
  match s with
  | "" => false
  | String c _ => isspace c
  end.

Fixpoint trailing_space (s : string) : bool :=
  match s with
  | "" => false
  | String c "" => isspace c
  | String _ s' => trailing_space s'
  end.

(** A text that is not empty and has no whitespace at either end. *)
Definition trimmed (text : string) : Prop :=
  text <> "" /\ leading_space text = false /\ trailing_space text = false.

Definition CR : ascii := ascii_of_nat 13.
Definition CRLF : string := String CR NL.

(** A text with every line feed preceded by a carriage return. *)
Fixpoint to_crlf (s : string) : string :=
  match s with
  | "" => ""
  | String c s' =>
      if Ascii.eqb c LF then String CR (String LF (to_crlf s'))
      else String c (to_crlf s')
  end.

(** Two line feeds in a row: what [srt_to_vtt] splits blocks at. *)
Definition blank_line : string := NL +:+ NL.

(** ** Detection *)

(** The section names whose presence selects the ASS conversion. *)
Definition ass_markers : list string :=
  ["[Script Info]"; "[V4+ Styles]"; "[Events]"].

(** ** ASS timestamps *)

Fixpoint digits (s : string) : bool :=
  match s with
  | "" => true
  | String c s' => isdigit c && digits s'
  end.

(** [h:m:s.cs] with one or more hour digits and two digits in every other
    field: what the pattern of [convert_timestamp] describes. *)
Record ass_shape (h m s cs : string) : Prop := {
  shape_h : digits h = true;
  shape_h_nonempty : h <> "";
  shape_m : digits m = true /\ String.length m = 2;
  shape_s : digits s = true /\ String.length s = 2;
  shape_cs : digits cs = true /\ String.length cs = 2
}.

Definition ass_time (h m s cs : string) : string :=
  h +:+ ":" +:+ m +:+ ":" +:+ s +:+ "." +:+ cs.

(** [ts] starts with a timestamp of that shape. *)
Definition shape_prefix (ts : string) : Prop :=
  exists h m s cs rest, ass_shape h m s cs /\ ts = ass_time h m s cs +:+ rest.

(** Zero-padding in the words of the specification: zeros are put in front
    of the digits until the width is reached, and the digits stay as they
    are. *)
Definition zero_pad (width : nat) (s : string) : string :=
  String.concat "" (replicate (width - String.length s) "0") +:+ s.

(** ** ASS lines and cues *)

Definition events_header (raw : string) : bool :=
  String.eqb (lower (strip raw)) "[events]".

(** Any line that opens with a bracket: every section header does. *)
Definition section_header (raw : string) : bool :=
  startswith "[" (strip raw).

Definition format_row (raw : string) : bool :=
  startswith "format:" (lower (strip raw)).

Definition dialogue_row (raw : string) : bool :=
  startswith "dialogue:" (lower (strip raw)).

(** The three lines of one cue: timing, text, separator. *)
Definition cue_lines (cue : string * string) : list string :=
  [cue.1; cue.2; ""].

(** [lines] is the header followed by the cues [cues], whole and with
    trimmed texts. *)
Definition cues_of (lines : list string) (cues : list (string * string)) : Prop :=
  lines = ["WEBVTT"; ""] ++ flat_map cue_lines cues /\
  Forall (fun cue => trimmed cue.2) cues.

(** The lines of the example in the specification, and the Format line
    that declares the column the row starts with. *)
Definition format_three : string := "Format: Start, End, Text".
Definition format_four : string := "Format: Layer, Start, End, Text".
Definition dialogue_hello : string :=
  "Dialogue: 0,0:00:01.50,0:00:02.75,Hello {\pos(0,0)}world".

(** ** SRT blocks *)

(** What makes a line of a block its timestamp line. *)
Definition timestamp_like (line : string) : Prop :=
  occurs_in "-->" line /\ occurs_in "," line.

(** A block whose last line ends in two spaces. *)
Definition srt_padded_lines : list string :=
  ["1"; "00:00:01,000 --> 00:00:02,500"; "Hello  "].

(** Two cues, line by line, with the blank line between them. *)
Definition srt_two_cues : list string :=
  ["1"; "00:00:01,000 --> 00:00:02,000"; "Hello"; "";
   "2"; "00:00:03,000 --> 00:00:04,000"; "World"].

(** ** Override tags and escapes *)

(** An opening brace with a closing brace somewhere after it: a span the
    pattern of the tag removal matches. *)
Definition tag_in (s : string) : Prop :=
  exists a b c, s = a +:+ "{" +:+ b +:+ "}" +:+ c.

Fixpoint has_tag (s : string) : bool :=
  match s with
  | "" => false
  | String c s' => (Ascii.eqb c "{" && contains "}" s') || has_tag s'
  end.

(** A timing line: two non-empty sides around the arrow. *)
Definition timing_line (line : string) : Prop :=
  exists a b, line = a +:+ " --> " +:+ b /\ a <> "" /\ b <> "".

(** A cue text without override tags and without line-break escapes. *)
Definition clean (text : string) : Prop :=
  ~ tag_in text /\ ~ occurs_in "\N" text /\ ~ occurs_in "\n" text.

(** [lines] is the header followed by the cues [cues], whole, each
    satisfying [Q]. *)
Definition cues_with (Q : string * string -> Prop)
    (lines : list string) (cues : list (string * string)) : Prop :=
  lines = ["WEBVTT"; ""] ++ flat_map cue_lines cues /\ Forall Q cues.

(** ** Fields of a Dialogue row *)

(** How often a character occurs in a text. *)
Fixpoint count_char (c : ascii) (s : string) : nat :=
  match s with
  | "" => 0
  | String d s' => (if Ascii.eqb d c then 1 else 0) + count_char c s'
  end.

(** The cue a row gives from its start, end and text fields. *)
Definition cue_of_fields (start end_ text : string) : list string :=
  if String.eqb start "" || String.eqb end_ "" || String.eqb text "" then []
  else if String.eqb (strip (clean_text text)) "" then []
  else [convert_timestamp start +:+ " --> " +:+ convert_timestamp end_;
        strip (clean_text text); ""].

(** ** SRT cues *)



(** * Properties *)

#[local] Arguments isspace : simpl never.
#[local] Arguments isdigit : simpl never.
#[local] Arguments tolower : simpl never.

(** Case analysis on every test of a conditional in the goal. *)
Ltac case_tests :=
  repeat match goal with
         | |- context [if ?b then _ else _] => destruct b
         end.

(** ** Prefixes and substrings *)

Lemma app_empty_r (s : string) : s +:+ "" = s.
Proof. induction s as [|c s IH]; simpl; [reflexivity | now rewrite IH]. Qed.

Lemma app_assoc_str (a b c : string) : (a +:+ b) +:+ c = a +:+ (b +:+ c).
Proof. induction a as [|x a IH]; simpl; [reflexivity | now rewrite IH]. Qed.

Lemma startswith_spec (p s : string) :
  startswith p s = true <-> exists r, s = p +:+ r.
Proof.
  unfold startswith. revert s.
  induction p as [|c p IH]; intros s; simpl.
  - split; [intros _; now exists s | now destruct s].
  - destruct s as [|d s]; simpl.
    + split; [discriminate | intros [r Hr]; discriminate].
    + destruct (ascii_dec c d) as [->|Hne].
      * rewrite IH. split; intros [r Hr]; exists r; congruence.
      * split; [discriminate | intros [r Hr]; congruence].
Qed.

Lemma startswith_cons (a b : ascii) (p s : string) :
  startswith (String a p) (String b s) = Ascii.eqb a b && startswith p s.
Proof.
  unfold startswith. simpl.
  destruct (ascii_dec a b) as [-> | Hne].
  - now rewrite Ascii.eqb_refl.
  - apply Ascii.eqb_neq in Hne. now rewrite Hne.
Qed.

Lemma contains_nil (p : string) : contains p "" = startswith p "".
Proof. unfold contains, startswith. apply orb_false_r. Qed.

Lemma contains_cons (p : string) (c : ascii) (s : string) :
  contains p (String c s) = startswith p (String c s) || contains p s.
Proof. reflexivity. Qed.

Lemma contains_spec (p s : string) : contains p s = true <-> occurs_in p s.
Proof.
  unfold occurs_in.
  induction s as [|c s IH].
  - rewrite contains_nil, startswith_spec. split.
    + intros [r Hr]. now exists "", r.
    + intros [[|x a] [b Hb]]; [now exists b | discriminate].
  - rewrite contains_cons, orb_true_iff, startswith_spec, IH. split.
    + intros [[r Hr] | [a [b Hab]]].
      * now exists "", r.
      * exists (String c a), b. simpl. now rewrite Hab.
    + intros [[|x a] [b Hb]].
      * left. now exists b.
      * right. simpl in Hb. injection Hb as _ Hs. now exists a, b.
Qed.

Lemma contains_false (p s : string) : contains p s = false <-> ~ occurs_in p s.
Proof.
  rewrite <- contains_spec. destruct (contains p s); split; intros H; congruence.
Qed.

(** ** Format detection and the empty input *)

Lemma is_ass_spec (content : string) :
  is_ass content = true <-> exists m, In m ass_markers /\ occurs_in m content.
Proof.
  unfold is_ass, ass_markers.
  rewrite !orb_true_iff, !contains_spec. simpl. split.
  - intros [[H | H] | H]; eauto 6.
  - intros [m [[<- | [<- | [<- | []]]] H]]; auto.
Qed.

Lemma is_ass_empty : is_ass "" = false.
Proof. reflexivity. Qed.

(** C8: for the empty input the converter returns the header line and one
    blank line, that is the string WEBVTT followed by two line feeds. *)
Theorem convert_to_vtt_empty : convert_to_vtt "" = "WEBVTT" +:+ NL +:+ NL.
Proof. reflexivity. Qed.

(** C4: detection is total, and it dispatches on the presence of a marker
    alone: a text in which one of the three section names occurs, with that
    exact spelling, goes to [ass_to_vtt]; every other text goes to
    [srt_to_vtt]. *)
Theorem convert_to_vtt_dispatch (content : string) :
  ((exists m, In m ass_markers /\ occurs_in m content) ->
   convert_to_vtt content = ass_to_vtt content) /\
  ((forall m, In m ass_markers -> ~ occurs_in m content) ->
   convert_to_vtt content = srt_to_vtt content).
Proof.
  unfold convert_to_vtt. split.
  - intros H. apply is_ass_spec in H.
    destruct (String.eqb_spec content "") as [-> | _].
    + rewrite is_ass_empty in H. discriminate.
    + now rewrite H.
  - intros H.
    destruct (String.eqb_spec content "") as [-> | _]; [reflexivity |].
    destruct (is_ass content) eqn:E; [| reflexivity].
    apply is_ass_spec in E. destruct E as [m [Hm Ho]].
    now destruct (H m Hm).
Qed.

Lemma convert_to_vtt_dispatch_witness :
  convert_to_vtt "1 [Events] 2" = ass_to_vtt "1 [Events] 2" /\
  convert_to_vtt "[events]" = srt_to_vtt "[events]".
Proof.
  split.
  - apply (proj1 (convert_to_vtt_dispatch "1 [Events] 2")).
    exists "[Events]". split; [simpl; tauto |].
    exists "1 ", " 2". reflexivity.
  - apply (proj2 (convert_to_vtt_dispatch "[events]")).
    intros m Hm. apply contains_false.
    destruct Hm as [<- | [<- | [<- | []]]]; reflexivity.
Defined.

(** ** The shape of an ASS timestamp *)

Lemma isdigit_cases (c : ascii) :
  isdigit c = true ->
  In c ["0"; "1"; "2"; "3"; "4"; "5"; "6"; "7"; "8"; "9"]%char.
Proof.
  destruct c as [[] [] [] [] [] [] [] []]; intros H;
    try discriminate H; simpl; tauto.
Qed.

Lemma span_digits_app (h r : string) :
  digits h = true ->
  (forall c r', r = String c r' -> isdigit c = false) ->
  span_digits (h +:+ r) = (h, r).
Proof.
  intros Hh Hr. induction h as [|c h IH]; simpl in *.
  - destruct r as [|c r']; [reflexivity |]. simpl. now rewrite (Hr c r' eq_refl).
  - apply andb_true_iff in Hh as [Hc Hh]. now rewrite Hc, (IH Hh).
Qed.

Lemma span_digits_spec (ts h r : string) :
  span_digits ts = (h, r) ->
  ts = h +:+ r /\ digits h = true /\
  (forall c r', r = String c r' -> isdigit c = false).
Proof.
  revert h r. induction ts as [|c ts IH]; simpl; intros h r H.
  - injection H as <- <-. repeat split. discriminate.
  - destruct (isdigit c) eqn:Hc.
    + destruct (span_digits ts) as [d r0]. injection H as <- <-.
      destruct (IH d r0 eq_refl) as (-> & Hd & Hr).
      repeat split; simpl; [now rewrite Hc, Hd | exact Hr].
    + injection H as <- <-. repeat split.
      intros c' r' [= <- <-]. exact Hc.
Qed.

Lemma two_digits_app (m r : string) :
  digits m = true -> String.length m = 2 ->
  two_digits (m +:+ r) = Some (m, r).
Proof.
  destruct m as [|a [|b [|c m]]]; simpl; try discriminate.
  intros H _. apply andb_true_iff in H as [Ha H].
  apply andb_true_iff in H as [Hb _]. now rewrite Ha, Hb.
Qed.

Lemma two_digits_spec (s m r : string) :
  two_digits s = Some (m, r) ->
  s = m +:+ r /\ digits m = true /\ String.length m = 2.
Proof.
  destruct s as [|a [|b s]]; simpl; try discriminate.
  destruct (isdigit a) eqn:Ha, (isdigit b) eqn:Hb; simpl; try discriminate.
  intros [= <- <-]. simpl. now rewrite Ha, Hb.
Qed.

Lemma expect_spec (c : ascii) (s r : string) :
  expect c s = Some r <-> s = String c r.
Proof.
  destruct s as [|d s]; simpl; [split; discriminate |].
  destruct (Ascii.eqb_spec d c) as [-> | Hne]; split; congruence.
Qed.

(** The matcher accepts exactly the strings that start with the shape. *)
Lemma match_timestamp_complete (h m s cs rest : string) :
  ass_shape h m s cs ->
  match_timestamp (ass_time h m s cs +:+ rest) = Some (h, m, s, cs).
Proof.
  intros [Hh Hne [Hm Lm] [Hs Ls] [Hc Lc]].
  unfold match_timestamp, ass_time. rewrite !app_assoc_str.
  rewrite span_digits_app; [| exact Hh | now intros c r' [= <- _]].
  destruct (String.eqb_spec h "") as [E | _]; [contradiction |].
  simpl. rewrite two_digits_app by assumption. simpl.
  rewrite two_digits_app by assumption. simpl.
  now rewrite two_digits_app by assumption.
Qed.

Lemma match_timestamp_sound (ts h m s cs : string) :
  match_timestamp ts = Some (h, m, s, cs) ->
  ass_shape h m s cs /\ exists rest, ts = ass_time h m s cs +:+ rest.
Proof.
  unfold match_timestamp.
  destruct (span_digits ts) as [h0 r0] eqn:E0.
  apply span_digits_spec in E0 as (-> & Hh & _).
  destruct (String.eqb_spec h0 "") as [_ | Hne]; [discriminate |].
  destruct (expect ":" r0) as [r1|] eqn:E1; simpl; [| discriminate].
  apply expect_spec in E1 as ->.
  destruct (two_digits r1) as [[m0 r2]|] eqn:E2; simpl; [| discriminate].
  apply two_digits_spec in E2 as (-> & Hm & Lm).
  destruct (expect ":" r2) as [r3|] eqn:E3; simpl; [| discriminate].
  apply expect_spec in E3 as ->.
  destruct (two_digits r3) as [[s0 r4]|] eqn:E4; simpl; [| discriminate].
  apply two_digits_spec in E4 as (-> & Hs & Ls).
  destruct (expect "." r4) as [r5|] eqn:E5; simpl; [| discriminate].
  apply expect_spec in E5 as ->.
  destruct (two_digits r5) as [[c0 r6]|] eqn:E6; simpl; [| discriminate].
  apply two_digits_spec in E6 as (-> & Hc & Lc).
  intros [= <- <- <- <-]. split; [now constructor |].
  exists r6. unfold ass_time. now rewrite !app_assoc_str.
Qed.

Lemma match_timestamp_none (ts : string) :
  match_timestamp ts = None <-> ~ shape_prefix ts.
Proof.
  split.
  - intros H (h & m & s & cs & rest & Hshape & ->).
    rewrite match_timestamp_complete in H by assumption. discriminate.
  - intros H. destruct (match_timestamp ts) as [[[[h m] s] cs]|] eqn:E;
      [| reflexivity].
    apply match_timestamp_sound in E as [Hshape [rest ->]].
    destruct H. now exists h, m, s, cs, rest.
Qed.

(** ** Hours: [int] and the [02d] format *)

Lemma uint_of_digits (h : string) :
  digits h = true -> exists u, NilEmpty.uint_of_string h = Some u.
Proof.
  induction h as [|c h IH]; simpl; intros H; [now eexists |].
  apply andb_true_iff in H as [Hc Hh]. destruct (IH Hh) as [u ->].
  apply isdigit_cases in Hc. simpl in Hc.
  repeat (destruct Hc as [<- | Hc]; [now eexists |]). destruct Hc.
Qed.

Lemma digits_string_of_uint (u : Decimal.uint) :
  digits (NilEmpty.string_of_uint u) = true.
Proof. induction u; simpl; auto. Qed.

Lemma int_str (n : N) : int (str n) = n.
Proof.
  unfold int, str. rewrite NilEmpty.usu. apply DecimalN.Unsigned.of_to.
Qed.

Lemma str_int (h : string) (u : Decimal.uint) :
  NilEmpty.uint_of_string h = Some u ->
  str (int h) = NilEmpty.string_of_uint (Decimal.unorm u).
Proof.
  intros H. unfold int, str. rewrite H. now rewrite DecimalN.Unsigned.to_of.
Qed.

Lemma str_nonempty (n : N) : str n <> "".
Proof.
  intros H. pose proof (int_str n) as E. rewrite H in E.
  subst n. discriminate H.
Qed.

Lemma int_leading_zero (s : string) : int (String "0" s) = int s.
Proof.
  unfold int. simpl. now destruct (NilEmpty.uint_of_string s).
Qed.

Lemma format_02d_cases (n : N) :
  (String.length (str n) = 1 /\ format_02d n = String "0" (str n)) \/
  (2 <= String.length (str n) /\ format_02d n = str n).
Proof.
  unfold format_02d. pose proof (str_nonempty n) as Hne.
  destruct (str n) as [|a [|b s]]; [contradiction | left | right];
    simpl; split; auto; lia.
Qed.

(** What the rendered hours are: at least two digits, with the value the
    hour digits have. *)
Lemma format_02d_int (h : string) :
  digits (format_02d (int h)) = true /\
  2 <= String.length (format_02d (int h)) /\
  int (format_02d (int h)) = int h.
Proof.
  assert (Hd : digits (str (int h)) = true) by apply digits_string_of_uint.
  destruct (format_02d_cases (int h)) as [[Hl ->] | [Hl ->]].
  - repeat split; [exact Hd | simpl; lia |].
    now rewrite int_leading_zero, int_str.
  - repeat split; [exact Hd | exact Hl | apply int_str].
Qed.

Lemma unorm_no_leading_zero (h : string) (u : Decimal.uint) :
  NilEmpty.uint_of_string h = Some u ->
  h <> "" -> startswith "0" h = false ->
  Decimal.unorm u = u.
Proof.
  intros Hu Hne H0. destruct h as [|c h]; [contradiction |].
  simpl in Hu. destruct (NilEmpty.uint_of_string h) as [v|]; [| discriminate].
  unfold startswith in H0. simpl in H0.
  destruct (ascii_dec "0" c) as [<- | Hc].
  - now destruct h.
  - unfold uint_of_char in Hu.
    destruct c as [[] [] [] [] [] [] [] []]; try discriminate Hu;
      injection Hu as <-; try reflexivity.
    now destruct Hc.
Qed.

(** On hours without surplus leading zeros the format is plain
    zero-padding of the digits to width two. *)
Lemma format_02d_zero_pad (h : string) :
  digits h = true -> h <> "" ->
  String.length h <= 2 \/ startswith "0" h = false ->
  format_02d (int h) = zero_pad 2 h.
Proof.
  intros Hd Hne Hc.
  destruct (uint_of_digits h Hd) as [u Hu].
  pose proof (NilEmpty.sus h u Hu) as Hs.
  destruct (startswith "0" h) eqn:H0.
  - destruct Hc as [Hl | Hc]; [| discriminate].
    apply startswith_spec in H0 as [r ->]. simpl in *.
    destruct r as [|b [|c r]]; [reflexivity | | simpl in Hl; lia].
    simpl in Hd. apply andb_true_iff in Hd as [Hb _].
    apply isdigit_cases in Hb. simpl in Hb.
    repeat (destruct Hb as [<- | Hb]; [reflexivity |]). destruct Hb.
  - unfold format_02d.
    rewrite (str_int h u Hu), (unorm_no_leading_zero h u Hu Hne H0), Hs.
    unfold zero_pad.
    destruct h as [|a [|b h]]; [contradiction | reflexivity | reflexivity].
Qed.

(** ** [convert_timestamp] *)

Lemma convert_timestamp_matched (h m s cs rest : string) :
  ass_shape h m s cs ->
  convert_timestamp (ass_time h m s cs +:+ rest)
  = ass_time (format_02d (int h)) m s (cs +:+ "0").
Proof.
  intros H. unfold convert_timestamp.
  now rewrite (match_timestamp_complete h m s cs rest H).
Qed.

Lemma convert_timestamp_unmatched (ts : string) :
  ~ shape_prefix ts -> convert_timestamp ts = ts.
Proof.
  intros H. apply match_timestamp_none in H.
  unfold convert_timestamp. now rewrite H.
Qed.

Lemma ass_shape_example : ass_shape "0" "00" "01" "50".
Proof. constructor; repeat split; discriminate. Qed.

(** C3, as the specification has it: padding leaves hours of three digits
    alone, but the code reads the hours as a number and writes the number,
    so leading zeros beyond the second digit are lost. *)
Theorem convert_timestamp_not_padding :
  ass_shape "007" "05" "00" "00" /\
  convert_timestamp (ass_time "007" "05" "00" "00") = "07:05:00.000" /\
  ass_time (zero_pad 2 "007") "05" "00" ("00" +:+ "0") = "007:05:00.000" /\
  convert_timestamp (ass_time "007" "05" "00" "00")
  <> ass_time (zero_pad 2 "007") "05" "00" ("00" +:+ "0").
Proof.
  split; [constructor; repeat split; discriminate |].
  repeat split. discriminate.
Qed.

(** C3, as the code has it: a value [h:m:s.cs] of the ASS shape is mapped
    to the hours written as a decimal number of at least two digits with
    the same value (the hour digits themselves, zero-padded to width two,
    when they are at most two or do not start with a zero), the minutes
    and seconds unchanged, and the centiseconds with the digit 0 appended;
    .50 becomes .500 and .05 becomes .050.  A value on which the pattern
    does not match is returned as it is. *)
Theorem convert_timestamp_centiseconds :
  (forall h m s cs, ass_shape h m s cs ->
     convert_timestamp (ass_time h m s cs)
     = ass_time (format_02d (int h)) m s (cs +:+ "0")
     /\ digits (format_02d (int h)) = true
     /\ 2 <= String.length (format_02d (int h))
     /\ int (format_02d (int h)) = int h
     /\ (String.length h <= 2 \/ startswith "0" h = false ->
         format_02d (int h) = zero_pad 2 h)) /\
  (forall ts, ~ shape_prefix ts -> convert_timestamp ts = ts) /\
  convert_timestamp "0:00:01.50" = "00:00:01.500" /\
  convert_timestamp "0:00:01.05" = "00:00:01.050".
Proof.
  split; [| split; [exact convert_timestamp_unmatched | now split]].
  intros h m s cs H.
  pose proof (convert_timestamp_matched h m s cs "" H) as E.
  rewrite app_empty_r in E.
  destruct (format_02d_int h) as (Hd & Hl & Hi).
  repeat split; try assumption.
  intros Hc. destruct H. now apply format_02d_zero_pad.
Qed.

Lemma convert_timestamp_centiseconds_witness :
  convert_timestamp (ass_time "0" "00" "01" "50")
  = ass_time "00" "00" "01" "500"
  /\ convert_timestamp "1.5 seconds" = "1.5 seconds".
Proof.
  split.
  - exact (proj1 (proj1 convert_timestamp_centiseconds
                    "0" "00" "01" "50" ass_shape_example)).
  - apply (proj1 (proj2 convert_timestamp_centiseconds)).
    apply match_timestamp_none. reflexivity.
Defined.

(** C9: the pattern is matched at the start of the value only.  Whatever
    follows a prefix of the ASS shape is dropped and the result is that of
    the prefix alone, so 0:00:01.505 loses its third fractional digit; the
    value is returned as it is exactly on the branch taken when no prefix
    has the shape. *)
Theorem convert_timestamp_prefix :
  (forall h m s cs rest, ass_shape h m s cs ->
     convert_timestamp (ass_time h m s cs +:+ rest)
     = convert_timestamp (ass_time h m s cs)
     /\ convert_timestamp (ass_time h m s cs +:+ rest)
        = ass_time (format_02d (int h)) m s (cs +:+ "0")) /\
  convert_timestamp "0:00:01.505" = "00:00:01.500" /\
  (forall ts, match_timestamp ts = None <-> ~ shape_prefix ts) /\
  (forall ts, match_timestamp ts = None -> convert_timestamp ts = ts).
Proof.
  split; [| split; [reflexivity | split]].
  - intros h m s cs rest H. split.
    + rewrite <- (app_empty_r (ass_time h m s cs)) at 2.
      now rewrite !convert_timestamp_matched.
    + now apply convert_timestamp_matched.
  - exact match_timestamp_none.
  - intros ts H. unfold convert_timestamp. now rewrite H.
Qed.

Lemma convert_timestamp_prefix_witness :
  convert_timestamp (ass_time "0" "00" "01" "50" +:+ "5")
  = convert_timestamp (ass_time "0" "00" "01" "50")
  /\ convert_timestamp "0:0:01.50" = "0:0:01.50".
Proof.
  split.
  - exact (proj1 (proj1 convert_timestamp_prefix
                    "0" "00" "01" "50" "5" ass_shape_example)).
  - apply (proj2 (proj2 (proj2 convert_timestamp_prefix))). reflexivity.
Defined.

(** ** [strip] *)

Lemma lstrip_leading (s : string) : leading_space (lstrip s) = false.
Proof.
  induction s as [|c s IH]; simpl; [reflexivity |].
  destruct (isspace c) eqn:E; [exact IH | simpl; exact E].
Qed.

Lemma rstrip_cons (c : ascii) (s : string) :
  rstrip (String c s) = "" \/ exists r, rstrip (String c s) = String c r.
Proof.
  simpl. destruct (rstrip s); [| eauto].
  destruct (isspace c); eauto.
Qed.

Lemma rstrip_leading (s : string) :
  leading_space s = false -> leading_space (rstrip s) = false.
Proof.
  destruct s as [|c s]; [reflexivity |]. intros H.
  destruct (rstrip_cons c s) as [-> | [r ->]]; [reflexivity | exact H].
Qed.

Lemma rstrip_trailing (s : string) : trailing_space (rstrip s) = false.
Proof.
  induction s as [|c s IH]; simpl; [reflexivity |].
  destruct (rstrip s) as [|d r] eqn:E.
  - destruct (isspace c) eqn:Hc; simpl; [reflexivity | exact Hc].
  - exact IH.
Qed.

(** A stripped text neither starts nor ends with whitespace. *)
Lemma strip_edges (s : string) :
  leading_space (strip s) = false /\ trailing_space (strip s) = false.
Proof.
  unfold strip. split.
  - apply rstrip_leading, lstrip_leading.
  - apply rstrip_trailing.
Qed.

(** A text without whitespace at its ends is left as it is. *)
Lemma lstrip_id (s : string) : leading_space s = false -> lstrip s = s.
Proof. destruct s as [|c s]; simpl; [reflexivity | now intros ->]. Qed.

Lemma rstrip_id (s : string) : trailing_space s = false -> rstrip s = s.
Proof.
  induction s as [|c s IH]; [reflexivity |]. simpl.
  destruct s as [|d s]; [now intros -> |].
  intros H. now rewrite (IH H).
Qed.

Lemma strip_trimmed (s : string) : trimmed s -> strip s = s.
Proof.
  intros (_ & Hl & Ht). unfold strip. rewrite (lstrip_id s Hl).
  now apply rstrip_id.
Qed.

(** ** The loop of [ass_to_vtt] *)

Lemma ass_loop_app (st : ass_state) (l1 l2 : list string) :
  ass_loop st (l1 ++ l2)
  = match ass_loop st l1 with
    | Continue st' => ass_loop st' l2
    | Break st' => Break st'
    end.
Proof.
  revert st. induction l1 as [|raw l1 IH]; intros st; simpl; [reflexivity |].
  destruct (ass_step st raw); [apply IH | reflexivity].
Qed.

Lemma ass_dialogue_cases (fmt : list string) (line : string) :
  ass_dialogue fmt line = [] \/
  exists timing text,
    ass_dialogue fmt line = cue_lines (timing, text) /\ trimmed text.
Proof.
  unfold ass_dialogue.
  destruct (_ <? _)%nat; [now left |].
  destruct (_ || _); [now left |].
  destruct (String.eqb_spec (strip (clean_text
    (dict_get (dict_zip fmt (split_max "," (slice_from 9 line)
       (length fmt - 1))) "text"))) "") as [_ | Hne]; [now left |].
  right. eexists _, _. split; [reflexivity |].
  split; [exact Hne | apply strip_edges].
Qed.

Lemma cues_of_app (lines : list string) (cues : list (string * string))
    (timing text : string) :
  cues_of lines cues -> trimmed text ->
  cues_of (lines ++ cue_lines (timing, text)) (cues ++ [(timing, text)]).
Proof.
  intros [-> Hall] Ht. split.
  - rewrite flat_map_app. reflexivity.
  - apply Forall_app. split; [exact Hall | now constructor].
Qed.

Lemma ass_step_cues (st : ass_state) (raw : string) (cues : list (string * string)) :
  cues_of (vtt_lines st) cues ->
  exists more, cues_of (vtt_lines (final (ass_step st raw))) (cues ++ more).
Proof.
  intros H.
  assert (Hsame : exists more, cues_of (vtt_lines st) (cues ++ more))
    by (exists []; now rewrite app_nil_r).
  unfold ass_step.
  destruct (String.eqb _ _); [exact Hsame |].
  destruct (_ && _); [exact Hsame |].
  destruct (in_events st); [| exact Hsame].
  destruct (startswith "format:" _); [exact Hsame |].
  destruct (startswith "dialogue:" _); [| exact Hsame].
  destruct (format_line st) as [[|f fmt]|]; try exact Hsame.
  simpl.
  destruct (ass_dialogue_cases (f :: fmt) (strip raw))
    as [-> | (timing & text & -> & Ht)].
  - now rewrite app_nil_r.
  - exists [(timing, text)]. now apply cues_of_app.
Qed.

Lemma ass_loop_cues (lines : list string) (st : ass_state)
    (cues : list (string * string)) :
  cues_of (vtt_lines st) cues ->
  exists more, cues_of (vtt_lines (final (ass_loop st lines))) (cues ++ more).
Proof.
  revert st cues. induction lines as [|raw lines IH]; intros st cues H; simpl.
  - exists []. now rewrite app_nil_r.
  - destruct (ass_step_cues st raw cues H) as [m1 H1].
    destruct (ass_step st raw) as [st' | st']; simpl in *.
    + destruct (IH st' _ H1) as [m2 H2]. exists (m1 ++ m2).
      now rewrite app_assoc.
    + now exists m1.
Qed.

(** C10: every cue that [ass_to_vtt] emits has a text that is not empty
    and has no whitespace at its start or at its end: the output lines are
    the header followed by cues of three lines, the timing, such a text,
    and an empty line. *)
Theorem ass_cue_text_trimmed (ass_content : string) :
  exists cues : list (string * string),
    ass_lines ass_content = ["WEBVTT"; ""] ++ flat_map cue_lines cues /\
    Forall (fun cue =>
              cue.2 <> "" /\
              leading_space cue.2 = false /\
              trailing_space cue.2 = false) cues.
Proof.
  destruct (ass_loop_cues (split LF ass_content) ass_init [])
    as [cues H]; [now split |].
  exists cues. exact H.
Qed.

(** ** The kinds of line the loop tells apart *)

Lemma dialogue_row_only (raw : string) :
  dialogue_row raw = true ->
  events_header raw = false /\ section_header raw = false /\
  format_row raw = false.
Proof.
  unfold dialogue_row, events_header, section_header, format_row.
  destruct (strip raw) as [|c line]; [discriminate |].
  change (lower (String c line)) with (String (tolower c) (lower line)).
  rewrite !startswith_cons.
  destruct (Ascii.eqb_spec "d" (tolower c)) as [E | _]; [| discriminate].
  intros _. rewrite <- E. repeat split.
  destruct (Ascii.eqb_spec "[" c) as [<- | _]; [discriminate E | reflexivity].
Qed.

Lemma ass_step_outside (st : ass_state) (raw : string) :
  in_events st = false -> events_header raw = false ->
  ass_step st raw = Continue st.
Proof.
  unfold events_header, ass_step. intros -> ->.
  now rewrite andb_false_r.
Qed.

Lemma ass_loop_outside (lines : list string) (st : ass_state) :
  in_events st = false ->
  Forall (fun raw => events_header raw = false) lines ->
  ass_loop st lines = Continue st.
Proof.
  intros Hst H. induction H as [|raw lines Hraw _ IH]; simpl; [reflexivity |].
  now rewrite (ass_step_outside st raw Hst Hraw).
Qed.

Lemma ass_step_keeps_format (st : ass_state) (raw : string) :
  format_row raw = false ->
  format_line (final (ass_step st raw)) = format_line st.
Proof.
  unfold format_row, ass_step. intros ->.
  destruct st as [ev [[|f fmt]|] out]; simpl; case_tests; reflexivity.
Qed.

Lemma ass_loop_keeps_format (lines : list string) (st : ass_state) :
  Forall (fun raw => format_row raw = false) lines ->
  format_line (final (ass_loop st lines)) = format_line st.
Proof.
  intros H. revert st.
  induction H as [|raw lines Hraw _ IH]; intros st; simpl; [reflexivity |].
  pose proof (ass_step_keeps_format st raw Hraw) as E.
  destruct (ass_step st raw) as [st' | st']; simpl in *; [| exact E].
  now rewrite IH.
Qed.

Lemma ass_step_no_schema (st : ass_state) (raw : string) :
  format_line st = None -> dialogue_row raw = true ->
  ass_step st raw = Continue st.
Proof.
  intros Hf Hd.
  destruct (dialogue_row_only raw Hd) as (He & Hs & Hfr).
  unfold events_header, section_header, format_row, dialogue_row in *.
  unfold ass_step. rewrite He, Hs, Hfr, Hd, Hf. simpl.
  now destruct (in_events st).
Qed.

Lemma ass_step_break (st : ass_state) (raw : string) :
  in_events st = true ->
  section_header raw = true -> events_header raw = false ->
  ass_step st raw = Break st.
Proof.
  unfold section_header, events_header, ass_step. now intros -> -> ->.
Qed.

Lemma Forall_false_forallb (f : string -> bool) (l : list string) :
  forallb (fun x => negb (f x)) l = true -> Forall (fun x => f x = false) l.
Proof.
  induction l as [|x l IH]; simpl; intros H; constructor.
  - now destruct (f x).
  - apply IH. now destruct (f x).
Qed.

Lemma ass_loop_skips_row (outside inside post : list string) (row : string) :
  Forall (fun raw => events_header raw = false) outside ->
  Forall (fun raw => format_row raw = false) inside ->
  dialogue_row row = true ->
  ass_loop ass_init (outside ++ inside ++ row :: post)
  = ass_loop ass_init (outside ++ inside ++ post).
Proof.
  intros Hout Hin Hrow.
  rewrite !(ass_loop_app ass_init outside).
  rewrite (ass_loop_outside outside ass_init eq_refl Hout).
  rewrite !ass_loop_app.
  pose proof (ass_loop_keeps_format inside ass_init Hin) as Hf.
  destruct (ass_loop ass_init inside) as [st | st]; [| reflexivity].
  simpl in *. now rewrite (ass_step_no_schema st row Hf Hrow).
Qed.

Lemma ass_loop_stops (pre post : list string) (hdr : string) (st : ass_state) :
  ass_loop ass_init pre = Continue st -> in_events st = true ->
  section_header hdr = true -> events_header hdr = false ->
  ass_loop ass_init (pre ++ hdr :: post) = Break st.
Proof.
  intros Hpre Hin Hh He. rewrite ass_loop_app, Hpre. simpl.
  now rewrite (ass_step_break st hdr Hin Hh He).
Qed.

(** C5: the scan as a state machine over the lines of the text.  Lines
    without an Events header, compared trimmed and without regard to case,
    leave the machine in its initial state, so no row among them is
    consumed.  A Dialogue row that comes before any Format line of the
    events section is skipped: the result is that of the text without the
    row.  In events mode a line that opens another section stops the scan:
    the result is that of the lines before it, whatever follows, a second
    Events block included. *)
Theorem ass_scan_state_machine :
  (forall content,
     Forall (fun raw => events_header raw = false) (split LF content) ->
     ass_loop ass_init (split LF content) = Continue ass_init /\
     ass_to_vtt content = "WEBVTT" +:+ NL) /\
  (forall content content' outside inside row post,
     split LF content = outside ++ inside ++ row :: post ->
     split LF content' = outside ++ inside ++ post ->
     Forall (fun raw => events_header raw = false) outside ->
     Forall (fun raw => format_row raw = false) inside ->
     dialogue_row row = true ->
     ass_to_vtt content = ass_to_vtt content') /\
  (forall content pre hdr post st,
     split LF content = pre ++ hdr :: post ->
     ass_loop ass_init pre = Continue st -> in_events st = true ->
     section_header hdr = true -> events_header hdr = false ->
     ass_loop ass_init (split LF content) = Break st /\
     ass_to_vtt content = join NL (vtt_lines st)) /\
  ass_lines (join NL
    ["Format: Layer, Start, End, Text";
     "Dialogue: 0,0:00:00.00,0:00:01.00,outside";
     "  [EVENTS] ";
     "Dialogue: 0,0:00:01.00,0:00:02.00,too early";
     "Format: Layer, Start, End, Text";
     "Dialogue: 0,0:00:03.00,0:00:04.00,kept";
     "[Fonts]";
     "[Events]";
     "Format: Layer, Start, End, Text";
     "Dialogue: 0,0:00:05.00,0:00:06.00,too late"])
  = ["WEBVTT"; ""; "00:00:03.000 --> 00:00:04.000"; "kept"; ""].
Proof.
  split; [| split; [| split; [| reflexivity]]].
  - intros content H. unfold ass_to_vtt, ass_lines.
    now rewrite (ass_loop_outside _ ass_init eq_refl H).
  - intros content content' outside inside row post Hc Hc' Hout Hin Hrow.
    unfold ass_to_vtt, ass_lines. rewrite Hc, Hc'.
    now rewrite (ass_loop_skips_row outside inside post row).
  - intros content pre hdr post st Hc Hpre Hin Hh He.
    unfold ass_to_vtt, ass_lines. rewrite Hc.
    now rewrite (ass_loop_stops pre post hdr st).
Qed.

Lemma ass_scan_state_machine_witness :
  ass_to_vtt (join NL ["Format: Start, End, Text";
                       "Dialogue: 0:00:01.00,0:00:02.00,Hi"])
  = "WEBVTT" +:+ NL /\
  ass_to_vtt (join NL ["Format: Start, End, Text"; "[Events]";
                       "Dialogue: 0:00:01.00,0:00:02.00,Hi";
                       "Format: Start, End, Text"])
  = ass_to_vtt (join NL ["Format: Start, End, Text"; "[Events]";
                         "Format: Start, End, Text"]) /\
  ass_to_vtt (join NL ["[Events]"; "[Fonts]"; "[Events]"])
  = join NL ["WEBVTT"; ""].
Proof.
  destruct ass_scan_state_machine as (Ha & Hb & Hc & _).
  split; [| split].
  - apply Ha. apply Forall_false_forallb. vm_compute. reflexivity.
  - apply (Hb _ _ ["Format: Start, End, Text"] ["[Events]"]
              "Dialogue: 0:00:01.00,0:00:02.00,Hi"
              ["Format: Start, End, Text"]).
    + vm_compute. reflexivity.
    + vm_compute. reflexivity.
    + apply Forall_false_forallb. vm_compute. reflexivity.
    + apply Forall_false_forallb. vm_compute. reflexivity.
    + vm_compute. reflexivity.
  - apply (Hc _ ["[Events]"] "[Fonts]" ["[Events]"]
              {| in_events := true; format_line := None;
                 vtt_lines := ["WEBVTT"; ""] |});
      vm_compute; reflexivity.
Defined.

(** ** The example of a Format line and a Dialogue row *)

Lemma ass_step_grows (st : ass_state) (raw : string) :
  exists more, vtt_lines (final (ass_step st raw)) = vtt_lines st ++ more.
Proof.
  assert (Hsame : exists more, vtt_lines st = vtt_lines st ++ more)
    by (exists []; now rewrite app_nil_r).
  unfold ass_step.
  repeat (match goal with
          | |- context [if ?b then _ else _] => destruct b
          | |- context [match format_line st with _ => _ end] =>
              destruct (format_line st) as [[|f fmt]|]
          end); simpl; try exact Hsame.
  now eexists.
Qed.

Lemma ass_loop_grows (lines : list string) (st : ass_state) :
  exists more, vtt_lines (final (ass_loop st lines)) = vtt_lines st ++ more.
Proof.
  revert st. induction lines as [|raw lines IH]; intros st; simpl.
  - exists []. now rewrite app_nil_r.
  - destruct (ass_step_grows st raw) as [m1 H1].
    destruct (ass_step st raw) as [st' | st']; simpl in *.
    + destruct (IH st') as [m2 H2]. exists (m1 ++ m2).
      now rewrite H2, H1, app_assoc.
    + now exists m1.
Qed.

Lemma ass_step_format_four (fl : option (list string)) (out : list string) :
  ass_step {| in_events := true; format_line := fl; vtt_lines := out |}
           format_four
  = Continue {| in_events := true;
                format_line := Some ["layer"; "start"; "end"; "text"];
                vtt_lines := out |}.
Proof. reflexivity. Qed.

Lemma ass_step_dialogue_hello (out : list string) :
  ass_step {| in_events := true;
              format_line := Some ["layer"; "start"; "end"; "text"];
              vtt_lines := out |}
           dialogue_hello
  = Continue {| in_events := true;
                format_line := Some ["layer"; "start"; "end"; "text"];
                vtt_lines :=
                  out ++ ["00:00:01.500 --> 00:00:02.750"; "Hello world"; ""] |}.
Proof. vm_compute. reflexivity. Qed.

(** C1, as the code has it: with the four columns Layer, Start, End, Text
    declared, the Dialogue row of the example gives a cue with the timing
    00:00:01.500 --> 00:00:02.750 and the text Hello world, wherever in the
    events section of the text the two lines stand. *)
Theorem ass_example_with_layer :
  (forall content pre post st,
     split LF content = pre ++ [format_four; dialogue_hello] ++ post ->
     ass_loop ass_init pre = Continue st -> in_events st = true ->
     exists more,
       ass_lines content
       = vtt_lines st
         ++ ["00:00:01.500 --> 00:00:02.750"; "Hello world"; ""] ++ more) /\
  ass_to_vtt (join NL ["[Script Info]"; "[Events]"; format_four; dialogue_hello])
  = join NL ["WEBVTT"; ""; "00:00:01.500 --> 00:00:02.750"; "Hello world"; ""].
Proof.
  split; [| reflexivity].
  intros content pre post [ev fl out] Hc Hpre Hin. simpl in Hin. subst ev.
  unfold ass_lines. rewrite Hc, ass_loop_app, Hpre. simpl app.
  cbn [ass_loop]. rewrite ass_step_format_four, ass_step_dialogue_hello.
  destruct (ass_loop_grows post
    {| in_events := true;
       format_line := Some ["layer"; "start"; "end"; "text"];
       vtt_lines := out ++ ["00:00:01.500 --> 00:00:02.750"; "Hello world"; ""] |})
    as [more ->].
  exists more. simpl. now rewrite <- app_assoc.
Qed.

Lemma ass_example_with_layer_witness :
  exists more,
    ass_lines (join NL ["[Events]"; format_four; dialogue_hello; "Dialogue: x"])
    = ["WEBVTT"; ""]
      ++ ["00:00:01.500 --> 00:00:02.750"; "Hello world"; ""] ++ more.
Proof.
  apply (proj1 ass_example_with_layer _ ["[Events]"] ["Dialogue: x"]
           {| in_events := true; format_line := None;
              vtt_lines := ["WEBVTT"; ""] |});
    vm_compute; reflexivity.
Defined.

(** C1, as the specification has it: under the three columns Start, End,
    Text the row has one field too many.  The fields are taken from the
    left, the last one absorbing the rest, so the layer becomes the start,
    the start becomes the end, and the real end stays in the text. *)
Theorem ass_example_three_columns :
  ass_lines (join NL ["[Events]"; format_three; dialogue_hello])
  = ["WEBVTT"; ""; " 0 --> 00:00:01.500"; "0:00:02.75,Hello world"; ""] /\
  ~ In "00:00:01.500 --> 00:00:02.750"
       (ass_lines (join NL ["[Events]"; format_three; dialogue_hello])) /\
  ~ In "Hello world"
       (ass_lines (join NL ["[Events]"; format_three; dialogue_hello])).
Proof.
  assert (E : ass_lines (join NL ["[Events]"; format_three; dialogue_hello])
              = ["WEBVTT"; ""; " 0 --> 00:00:01.500";
                 "0:00:02.75,Hello world"; ""]) by (vm_compute; reflexivity).
  rewrite E. split; [reflexivity |].
  split; intros H; simpl in H; intuition discriminate.
Qed.

(** ** [srt_to_vtt] *)

Lemma is_timestamp_spec (line : string) :
  is_timestamp line = true <-> timestamp_like line.
Proof.
  unfold is_timestamp, timestamp_like.
  now rewrite andb_true_iff, !contains_spec.
Qed.

Lemma is_timestamp_false (line : string) :
  is_timestamp line = false <-> ~ timestamp_like line.
Proof.
  rewrite <- is_timestamp_spec.
  destruct (is_timestamp line); split; intros H; congruence.
Qed.

Lemma find_timestamp_first (i : nat) (pre post : list string) (ts : string) :
  Forall (fun line => ~ timestamp_like line) pre ->
  timestamp_like ts ->
  find_timestamp i (pre ++ ts :: post) = Some (ts, S (i + length pre)).
Proof.
  intros Hpre Hts. revert i.
  induction Hpre as [|line pre Hline _ IH]; intros i; simpl.
  - apply is_timestamp_spec in Hts. rewrite Hts. do 3 f_equal. lia.
  - apply is_timestamp_false in Hline. rewrite Hline, IH. do 3 f_equal. lia.
Qed.

Lemma foldl_append_blocks (out : list string) (blocks : list string) :
  foldl (fun vtt block => vtt ++ srt_block block) out blocks
  = out ++ flat_map srt_block blocks.
Proof.
  revert out. induction blocks as [|b blocks IH]; intros out; simpl.
  - now rewrite app_nil_r.
  - now rewrite IH, app_assoc.
Qed.

Lemma find_timestamp_some (lines : list string) (i k : nat) (ts : string) :
  find_timestamp i lines = Some (ts, k) ->
  exists pre post,
    lines = pre ++ ts :: post /\
    Forall (fun line => ~ timestamp_like line) pre /\
    timestamp_like ts.
Proof.
  revert i. induction lines as [|line lines IH]; intros i; simpl;
    [discriminate |].
  destruct (is_timestamp line) eqn:E.
  - intros [= <- _]. exists [], lines.
    split; [reflexivity | split; [constructor | now apply is_timestamp_spec]].
  - intros H. destruct (IH _ H) as (pre & post & -> & Hpre & Hts).
    exists (line :: pre), post.
    split; [reflexivity | split; [| exact Hts]].
    constructor; [now apply is_timestamp_false | exact Hpre].
Qed.

Lemma srt_block_emits (block : string) (pre post : list string) (ts : string) :
  split LF (strip block) = pre ++ ts :: post ->
  Forall (fun line => ~ timestamp_like line) pre ->
  timestamp_like ts ->
  post <> [] ->
  srt_block block = replace_char "," "." ts :: post ++ [""].
Proof.
  intros Hsplit Hpre Hts Hpost.
  unfold srt_block. rewrite Hsplit.
  rewrite (find_timestamp_first 0 pre post ts Hpre Hts).
  assert (Hlen : (length (pre ++ ts :: post) <? 2)%nat = false).
  { apply Nat.ltb_ge. rewrite length_app. simpl.
    destruct post; [contradiction | simpl; lia]. }
  rewrite Hlen.
  assert (Hts' : String.eqb ts "" = false).
  { apply String.eqb_neq. intros ->.
    destruct Hts as [[a [b Hab]] _]. now destruct a. }
  rewrite Hts'. simpl.
  assert (Hdrop : drop (S (length pre)) (pre ++ ts :: post) = post)
    by (clear; induction pre; simpl; auto).
  rewrite Hdrop. now destruct post.
Qed.

(** A block contributes nothing or one cue made this way. *)
Lemma srt_block_cases (block : string) :
  srt_block block = [] \/
  exists pre ts post,
    split LF (strip block) = pre ++ ts :: post /\
    Forall (fun line => ~ timestamp_like line) pre /\
    timestamp_like ts /\
    post <> [] /\
    srt_block block = replace_char "," "." ts :: post ++ [""].
Proof.
  destruct (srt_block block) as [|l ls] eqn:E; [now left | right].
  rewrite <- E. unfold srt_block in E.
  destruct (_ <? _)%nat; [discriminate |].
  destruct (find_timestamp 0 (split LF (strip block)))
    as [[ts k]|] eqn:F; [| discriminate].
  destruct (find_timestamp_some _ _ _ _ F) as (pre & post & Hs & Hpre & Hts).
  exists pre, ts, post.
  assert (Hpost : post <> []).
  { intros ->. rewrite Hs in F, E.
    rewrite (find_timestamp_first 0 pre [] ts Hpre Hts) in F.
    injection F as <-.
    simpl in E.
    replace (drop (S (length pre)) (pre ++ [ts])) with (@nil string) in E
      by (clear; induction pre; simpl; auto).
    now destruct (String.eqb ts ""). }
  split; [exact Hs |]. split; [exact Hpre |]. split; [exact Hts |].
  split; [exact Hpost |]. now apply (srt_block_emits block pre post ts).
Qed.

(** C2, as the code has it: the output of [srt_to_vtt] is the header
    followed by what each block contributes, block by block.  A block is
    stripped of the whitespace at its two ends first.  Among the lines of
    the stripped block, the first one in which both the arrow and a comma
    occur is the timestamp line; the cue is that line with its commas
    turned into periods, then the lines after it as they are, then an
    empty line; a block contributes nothing else.  For a block without
    whitespace at its ends these lines are the lines of the block itself.
    The three-line example gives the timing 00:00:01.000 --> 00:00:02.500
    followed by Hello. *)
Theorem srt_block_cue :
  (forall srt_content, srt_content <> "" ->
     srt_to_vtt srt_content
     = join NL (["WEBVTT"; ""] ++ flat_map srt_block (srt_blocks srt_content))) /\
  (forall block pre ts post,
     split LF (strip block) = pre ++ ts :: post ->
     Forall (fun line => ~ timestamp_like line) pre ->
     timestamp_like ts ->
     post <> [] ->
     srt_block block = replace_char "," "." ts :: post ++ [""]) /\
  (forall block,
     srt_block block = [] \/
     exists pre ts post,
       split LF (strip block) = pre ++ ts :: post /\
       Forall (fun line => ~ timestamp_like line) pre /\
       timestamp_like ts /\
       post <> [] /\
       srt_block block = replace_char "," "." ts :: post ++ [""]) /\
  (forall block pre ts post,
     trimmed block ->
     split LF block = pre ++ ts :: post ->
     Forall (fun line => ~ timestamp_like line) pre ->
     timestamp_like ts ->
     post <> [] ->
     srt_block block = replace_char "," "." ts :: post ++ [""]) /\
  contains
    (join NL ["00:00:01.000 --> 00:00:02.500"; "Hello"; ""])
    (convert_to_vtt (join NL ["1"; "00:00:01,000 --> 00:00:02,500"; "Hello"]))
  = true.
Proof.
  split; [| split; [| split; [| split; [| reflexivity]]]].
  - intros srt_content Hne. unfold srt_to_vtt, srt_lines.
    apply String.eqb_neq in Hne. now rewrite Hne, foldl_append_blocks.
  - intros block pre ts post. apply srt_block_emits.
  - exact srt_block_cases.
  - intros block pre ts post Htr Hsplit.
    apply srt_block_emits. now rewrite (strip_trimmed block Htr).
Qed.

Lemma srt_block_cue_witness :
  srt_block (join NL ["7"; "an arrow --> alone"; "00:01,5 --> 00:02,5"; "a, b"; " c"])
  = ["00:01.5 --> 00:02.5"; "a, b"; " c"; ""] /\
  srt_block (join NL ["1"; "00:00:01,000 --> 00:00:02,500"; " Hello,"; "you"])
  = ["00:00:01.000 --> 00:00:02.500"; " Hello,"; "you"; ""].
Proof.
  split.
  - apply (proj1 (proj2 srt_block_cue) _ ["7"; "an arrow --> alone"]
             "00:01,5 --> 00:02,5" ["a, b"; " c"]).
    + reflexivity.
    + repeat constructor; apply is_timestamp_false; reflexivity.
    + apply is_timestamp_spec. reflexivity.
    + discriminate.
  - apply (proj1 (proj2 (proj2 (proj2 srt_block_cue))) _ ["1"]
             "00:00:01,000 --> 00:00:02,500" [" Hello,"; "you"]).
    + repeat split; discriminate.
    + reflexivity.
    + repeat constructor. apply is_timestamp_false. reflexivity.
    + apply is_timestamp_spec. reflexivity.
    + discriminate.
Defined.

(** C2, as the specification has it: the text of a cue is not always the
    lines after the timestamp line as they stand in the block.  The block
    is stripped before it is cut into lines, so whitespace at the end of
    its last line is lost, and a last line of whitespace only is no line
    of the cue at all. *)
Theorem srt_block_text_stripped :
  srt_blocks (join NL (srt_padded_lines ++ [""; "2";
                         "00:00:03,000 --> 00:00:04,000"; "World"]))
  = [join NL srt_padded_lines;
     join NL ["2"; "00:00:03,000 --> 00:00:04,000"; "World"]] /\
  split LF (join NL srt_padded_lines) = srt_padded_lines /\
  srt_block (join NL srt_padded_lines)
  = ["00:00:01.000 --> 00:00:02.500"; "Hello"; ""] /\
  srt_block (join NL srt_padded_lines)
  <> ["00:00:01.000 --> 00:00:02.500"; "Hello  "; ""] /\
  srt_block (join NL ["1"; "00:00:01,000 --> 00:00:02,500"; "Hello"; " "])
  = ["00:00:01.000 --> 00:00:02.500"; "Hello"; ""].
Proof.
  assert (E : srt_block (join NL srt_padded_lines)
              = ["00:00:01.000 --> 00:00:02.500"; "Hello"; ""])
    by (vm_compute; reflexivity).
  rewrite E.
  split; [vm_compute; reflexivity |].
  split; [vm_compute; reflexivity |].
  split; [reflexivity |].
  split; [discriminate | vm_compute; reflexivity].
Qed.

(** ** Line endings and blocks *)

Lemma startswith_blank_line (c : ascii) (s : string) :
  startswith blank_line (String c s) = Ascii.eqb c LF && startswith NL s.
Proof.
  unfold blank_line, NL. simpl String.append.
  rewrite startswith_cons. now rewrite Ascii.eqb_sym.
Qed.

Lemma to_crlf_head (s : string) : startswith NL (to_crlf s) = false.
Proof.
  destruct s as [|c s]; [reflexivity |]. simpl.
  destruct (Ascii.eqb_spec c LF) as [-> | Hne]; [reflexivity |].
  unfold NL. rewrite startswith_cons.
  destruct (Ascii.eqb_spec LF c) as [<- | _]; [contradiction | reflexivity].
Qed.

Lemma to_crlf_no_blank_line (s : string) :
  contains blank_line (to_crlf s) = false.
Proof.
  induction s as [|c s IH]; [reflexivity |]. simpl.
  destruct (Ascii.eqb_spec c LF) as [-> | Hne].
  - rewrite !contains_cons, !startswith_blank_line, IH, to_crlf_head.
    reflexivity.
  - rewrite contains_cons, startswith_blank_line, IH.
    apply Ascii.eqb_neq in Hne. now rewrite Hne.
Qed.

Lemma lstrip_suffix (s : string) : exists a, s = a +:+ lstrip s.
Proof.
  induction s as [|c s [a IH]]; simpl; [now exists "" |].
  destruct (isspace c); [| now exists ""].
  exists (String c a). simpl. now rewrite <- IH.
Qed.

Lemma rstrip_prefix (s : string) : exists b, s = rstrip s +:+ b.
Proof.
  induction s as [|c s [b IH]]; simpl; [now exists "" |].
  destruct (rstrip s) as [|d r] eqn:E.
  - destruct (isspace c).
    + now exists (String c s).
    + exists s. reflexivity.
  - exists b. simpl. simpl in IH. now rewrite <- IH.
Qed.

Lemma occurs_in_strip (q s : string) : occurs_in q (strip s) -> occurs_in q s.
Proof.
  unfold strip. intros (a & b & H).
  destruct (lstrip_suffix s) as [x Hx].
  destruct (rstrip_prefix (lstrip s)) as [y Hy].
  exists (x +:+ a), (b +:+ y).
  rewrite Hx at 1. rewrite Hy at 1. rewrite H.
  now rewrite !app_assoc_str.
Qed.

Lemma re_split_blank_single (s : string) :
  contains blank_line s = false -> re_split_blank false s = [s].
Proof.
  induction s as [|c s IH]; [reflexivity |].
  rewrite contains_cons, startswith_blank_line.
  intros H. apply orb_false_iff in H as [Hhead Htail].
  simpl. rewrite (IH Htail).
  destruct (Ascii.eqb c LF); [| reflexivity].
  simpl in Hhead. now rewrite Hhead.
Qed.

Lemma re_split_blank_nonempty (in_run : bool) (s : string) :
  1 <= length (re_split_blank in_run s).
Proof.
  revert in_run. induction s as [|c s IH]; intros in_run; simpl; [lia |].
  destruct (Ascii.eqb c LF), in_run; try apply IH;
    try (destruct (startswith NL s); simpl; [lia |]);
    specialize (IH false); destruct (re_split_blank false s); simpl in *; lia.
Qed.

Lemma re_split_blank_splits (a b : string) :
  2 <= length (re_split_blank false (a +:+ blank_line +:+ b)).
Proof.
  induction a as [|c a IH].
  - change ("" +:+ blank_line +:+ b) with (String LF (String LF b)).
    simpl re_split_blank.
    replace (startswith "" b) with true by (now destruct b).
    pose proof (re_split_blank_nonempty true b).
    rewrite length_cons. lia.
  - change (String c a +:+ blank_line +:+ b)
      with (String c (a +:+ blank_line +:+ b)).
    set (t := a +:+ blank_line +:+ b) in *.
    simpl re_split_blank.
    destruct (Ascii.eqb c LF); [destruct (startswith NL t) |].
    + pose proof (re_split_blank_nonempty true t).
      rewrite length_cons. lia.
    + destruct (re_split_blank false t); simpl in *; lia.
    + destruct (re_split_blank false t); simpl in *; lia.
Qed.

(** C7, as the code has it: line endings are left as they are, and the
    stripped text is cut into blocks only where two or more line feeds
    stand in a row.  Such a place always separates blocks; a text whose
    line feeds all follow a carriage return has none, and is one block. *)
Theorem srt_blocks_line_feeds_only :
  (forall a b, 2 <= length (re_split_blank false (a +:+ blank_line +:+ b))) /\
  (forall doc, srt_blocks (to_crlf doc) = [strip (to_crlf doc)]) /\
  length (srt_blocks (join NL srt_two_cues)) = 2 /\
  length (srt_blocks (join CRLF srt_two_cues)) = 1.
Proof.
  split; [exact re_split_blank_splits | split; [| split; reflexivity]].
  intros doc. unfold srt_blocks. apply re_split_blank_single.
  apply contains_false. intros H. apply occurs_in_strip in H.
  apply contains_spec in H. now rewrite to_crlf_no_blank_line in H.
Qed.

(** C7, as the specification has it: the same two cues, once with LF and
    once with CRLF line endings, do not give the same blocks nor the same
    cues.  With CRLF the whole text is one block, and everything after
    the first timestamp line, the second timestamp line included, is the
    text of one cue. *)
Theorem srt_crlf_differs :
  srt_blocks (join CRLF srt_two_cues) = [join CRLF srt_two_cues] /\
  srt_blocks (join NL srt_two_cues)
  = [join NL ["1"; "00:00:01,000 --> 00:00:02,000"; "Hello"];
     join NL ["2"; "00:00:03,000 --> 00:00:04,000"; "World"]] /\
  srt_lines (join NL srt_two_cues)
  = ["WEBVTT"; "";
     "00:00:01.000 --> 00:00:02.000"; "Hello"; "";
     "00:00:03.000 --> 00:00:04.000"; "World"; ""] /\
  srt_lines (join CRLF srt_two_cues)
  = ["WEBVTT"; "";
     "00:00:01.000 --> 00:00:02.000" +:+ String CR "";
     "Hello" +:+ String CR ""; String CR ""; "2" +:+ String CR "";
     "00:00:03,000 --> 00:00:04,000" +:+ String CR ""; "World"; ""] /\
  srt_to_vtt (join CRLF srt_two_cues) <> srt_to_vtt (join NL srt_two_cues).
Proof.
  repeat split; try (vm_compute; reflexivity).
  vm_compute. discriminate.
Qed.

(** ** Documents without cues *)

Lemma strip_empty_lstrip (s : string) : strip s = "" -> lstrip s = "".
Proof.
  unfold strip. pose proof (lstrip_leading s) as H.
  destruct (lstrip s) as [|c r]; [reflexivity |]. simpl in *.
  destruct (rstrip r); [| discriminate]. now rewrite H.
Qed.

Lemma blank_no_bracket (s p : string) :
  lstrip s = "" -> contains (String "[" p) s = false.
Proof.
  induction s as [|c s IH]; [reflexivity |]. simpl lstrip.
  destruct (isspace c) eqn:Hc; [| discriminate]. intros H.
  rewrite contains_cons, startswith_cons, (IH H).
  destruct (Ascii.eqb_spec "[" c) as [<- | _]; [discriminate Hc | reflexivity].
Qed.

Lemma srt_to_vtt_no_cues (srt_content : string) :
  srt_content <> "" ->
  Forall (fun block => srt_block block = []) (srt_blocks srt_content) ->
  srt_to_vtt srt_content = "WEBVTT" +:+ NL.
Proof.
  intros Hne H. unfold srt_to_vtt, srt_lines.
  apply String.eqb_neq in Hne. rewrite Hne, foldl_append_blocks.
  replace (flat_map srt_block (srt_blocks srt_content)) with (@nil string);
    [reflexivity |].
  induction H as [|b bs Hb _ IH]; simpl; [reflexivity |].
  now rewrite Hb, <- IH.
Qed.

(** An input of whitespace only, not empty, gives the header and one line
    feed. *)
Lemma convert_to_vtt_blank (content : string) :
  content <> "" -> strip content = "" ->
  convert_to_vtt content = "WEBVTT" +:+ NL.
Proof.
  intros Hne Hs. unfold convert_to_vtt.
  pose proof Hne as Hne'. apply String.eqb_neq in Hne'. rewrite Hne'.
  unfold is_ass.
  rewrite !(blank_no_bracket content _ (strip_empty_lstrip content Hs)).
  simpl. apply srt_to_vtt_no_cues; [exact Hne |].
  unfold srt_blocks. rewrite Hs. repeat constructor.
Qed.

(** C6: the two ways to a document without cues disagree.  The guard for
    the empty string returns the header and a blank line; an input of
    blanks only, or one whose blocks are all skipped, leaves the loop with
    the two initial entries of [vtt_lines], which join to the header and a
    single line feed. *)
Theorem convert_to_vtt_header_only :
  convert_to_vtt "" = "WEBVTT" +:+ NL +:+ NL /\
  convert_to_vtt "   " = "WEBVTT" +:+ NL /\
  convert_to_vtt (join NL ["1"; "no arrow here"; ""; "2"; "nor here"])
    = "WEBVTT" +:+ NL /\
  convert_to_vtt (join NL ["[Events]"; "Dialogue: no schema"])
    = "WEBVTT" +:+ NL /\
  "WEBVTT" +:+ NL <> "WEBVTT" +:+ NL +:+ NL.
Proof. repeat split; try reflexivity. discriminate. Qed.

(** * Further properties of the conversion *)

(** ** The header of every document *)

Lemma join_cons2 (sep x y : string) (l : list string) :
  join sep (x :: y :: l) = x +:+ sep +:+ join sep (y :: l).
Proof. reflexivity. Qed.

Lemma header_lines_join (more : list string) :
  exists body,
    join NL (["WEBVTT"; ""] ++ more) = "WEBVTT" +:+ NL +:+ body /\
    (body = "" \/ exists rest, body = NL +:+ rest).
Proof.
  simpl app. rewrite join_cons2. eexists. split; [reflexivity |].
  destruct more as [|x more]; [now left | right].
  rewrite join_cons2. now eexists.
Qed.

(** X1: whatever the input, the result of [convert_to_vtt] starts with the
    line WEBVTT, and what follows that line, if anything, starts with an
    empty line. *)
Theorem convert_to_vtt_starts_with_header (content : string) :
  exists body,
    convert_to_vtt content = "WEBVTT" +:+ NL +:+ body /\
    (body = "" \/ exists rest, body = NL +:+ rest).
Proof.
  unfold convert_to_vtt.
  destruct (String.eqb content "").
  - exists NL. split; [reflexivity | right; now exists ""].
  - destruct (is_ass content).
    + unfold ass_to_vtt, ass_lines.
      destruct (ass_loop_grows (split LF content) ass_init) as [more ->].
      apply header_lines_join.
    + unfold srt_to_vtt. destruct (String.eqb content "").
      * exists NL. split; [reflexivity | right; now exists ""].
      * unfold srt_lines. rewrite foldl_append_blocks.
        apply header_lines_join.
Qed.

(** ** Timestamps that are converted already *)

Lemma ass_time_append (h m s cs rest : string) :
  ass_time h m s (cs +:+ rest) = ass_time h m s cs +:+ rest.
Proof. unfold ass_time. now rewrite !app_assoc_str. Qed.

Lemma digits_nonempty_length (s : string) : 2 <= String.length s -> s <> "".
Proof. destruct s; simpl; [lia | discriminate]. Qed.

Lemma convert_timestamp_matched_fixed (h m s cs : string) :
  ass_shape h m s cs -> format_02d (int h) = h ->
  convert_timestamp (ass_time h m s (cs +:+ "0")) = ass_time h m s (cs +:+ "0").
Proof.
  intros Hshape Hh.
  rewrite ass_time_append at 1.
  now rewrite (convert_timestamp_matched h m s cs "0" Hshape), Hh.
Qed.

Lemma zero_pad_wide (h : string) : 2 <= String.length h -> zero_pad 2 h = h.
Proof.
  intros H. unfold zero_pad.
  replace (2 - String.length h) with 0 by lia. reflexivity.
Qed.

(** X3: [convert_timestamp] is idempotent: applied to its own result it
    changes nothing.  A timestamp of the form the conversion produces, two
    or more hour digits without a surplus leading zero and a last fraction
    digit 0 after the two centisecond digits, is returned as it is; a
    third fraction digit other than 0 is not kept, so 12:34:56.789 becomes
    12:34:56.780. *)
Theorem convert_timestamp_idempotent :
  (forall ts, convert_timestamp (convert_timestamp ts) = convert_timestamp ts) /\
  (forall h m s cs,
     ass_shape h m s cs ->
     2 <= String.length h ->
     String.length h = 2 \/ startswith "0" h = false ->
     convert_timestamp (ass_time h m s (cs +:+ "0"))
     = ass_time h m s (cs +:+ "0")) /\
  convert_timestamp "12:34:56.789" = "12:34:56.780".
Proof.
  split; [| split; [| reflexivity]].
  - intros ts. destruct (match_timestamp ts) as [[[[h m] s] cs]|] eqn:E.
    + apply match_timestamp_sound in E as [Hshape [rest ->]].
      rewrite (convert_timestamp_matched h m s cs rest Hshape).
      destruct (format_02d_int h) as (Hd & Hl & Hi).
      destruct Hshape as [Hh Hne Hm Hs Hc].
      assert (Hshape' : ass_shape (format_02d (int h)) m s cs)
        by (constructor; auto using digits_nonempty_length).
      rewrite ass_time_append.
      rewrite (convert_timestamp_matched _ m s cs "0" Hshape').
      now rewrite Hi, ass_time_append.
    + unfold convert_timestamp at 2. now rewrite E.
  - intros h m s cs Hshape Hlen Hzero.
    apply convert_timestamp_matched_fixed; [exact Hshape |].
    destruct Hshape as [Hh Hne _ _ _].
    rewrite format_02d_zero_pad; [now apply zero_pad_wide | exact Hh | exact Hne |].
    destruct Hzero as [H2 | H0]; [left; lia | now right].
Qed.

Lemma convert_timestamp_idempotent_witness :
  convert_timestamp (ass_time "00" "00" "01" ("50" +:+ "0"))
  = ass_time "00" "00" "01" ("50" +:+ "0").
Proof.
  apply (proj1 (proj2 convert_timestamp_idempotent)).
  - constructor; repeat split; discriminate.
  - simpl. lia.
  - left. reflexivity.
Defined.

(** ** ASS text with CRLF line endings *)

Lemma rstrip_cons_congr (c : ascii) (a b : string) :
  rstrip a = rstrip b -> rstrip (String c a) = rstrip (String c b).
Proof. simpl. now intros ->. Qed.

Lemma lstrip_rstrip_comm (s : string) : rstrip (lstrip s) = lstrip (rstrip s).
Proof.
  induction s as [|c s IH]; [reflexivity |]. simpl lstrip at 1.
  destruct (isspace c) eqn:Hc.
  - rewrite IH. simpl rstrip. destruct (rstrip s) as [|d r] eqn:E.
    + now rewrite Hc.
    + simpl. now rewrite Hc.
  - destruct (rstrip_cons c s) as [E | [r E]]; rewrite E.
    + simpl in E. destruct (rstrip s); [| discriminate].
      rewrite Hc in E. discriminate.
    + simpl. now rewrite Hc.
Qed.

Lemma strip_rstrip_congr (a b : string) :
  rstrip a = rstrip b -> strip a = strip b.
Proof. unfold strip. rewrite !lstrip_rstrip_comm. now intros ->. Qed.

Lemma cons_head_Forall2 (R : string -> string -> Prop) (c : ascii)
    (l1 l2 : list string) :
  (forall a b, R a b -> R (String c a) (String c b)) ->
  R (String c "") (String c "") ->
  Forall2 R l1 l2 -> Forall2 R (cons_head c l1) (cons_head c l2).
Proof.
  intros Hc H0 H. destruct H; simpl; constructor; auto.
Qed.

Lemma split_to_crlf (s : string) :
  Forall2 (fun a b => rstrip a = rstrip b) (split LF (to_crlf s)) (split LF s).
Proof.
  induction s as [|c s IH]; simpl; [now repeat constructor |].
  destruct (Ascii.eqb_spec c LF) as [-> | Hne].
  - simpl. constructor; [reflexivity | exact IH].
  - simpl. apply Ascii.eqb_neq in Hne. rewrite Hne.
    apply cons_head_Forall2; [| reflexivity | exact IH].
    intros a b. apply rstrip_cons_congr.
Qed.

Lemma ass_step_strip (st : ass_state) (a b : string) :
  strip a = strip b -> ass_step st a = ass_step st b.
Proof. unfold ass_step. now intros ->. Qed.

(** Lines that are equal once stripped are the same to the scan. *)
Lemma ass_loop_strip (l1 l2 : list string) (st : ass_state) :
  Forall2 (fun a b => strip a = strip b) l1 l2 ->
  ass_loop st l1 = ass_loop st l2.
Proof.
  intros H. revert st. induction H as [|a b l1 l2 Hab _ IH]; intros st;
    simpl; [reflexivity |].
  rewrite (ass_step_strip st a b Hab).
  destruct (ass_step st b); [apply IH | reflexivity].
Qed.

(** X2: [ass_to_vtt] strips every line, so a carriage return before each
    line feed changes nothing: a text with CRLF line endings is converted
    to the same document as the text with LF line endings. *)
Theorem ass_to_vtt_crlf (ass_content : string) :
  ass_to_vtt (to_crlf ass_content) = ass_to_vtt ass_content.
Proof.
  unfold ass_to_vtt, ass_lines. f_equal. f_equal. f_equal.
  apply ass_loop_strip.
  eapply Forall2_impl; [apply split_to_crlf |].
  intros a b. apply strip_rstrip_congr.
Qed.

(** ** Tag removal *)

Lemma startswith_empty (s : string) : startswith "" s = true.
Proof. now destruct s. Qed.

Lemma contains_char_cons (x c : ascii) (s : string) :
  contains (String x "") (String c s)
  = Ascii.eqb x c || contains (String x "") s.
Proof.
  now rewrite contains_cons, startswith_cons, startswith_empty, andb_true_r.
Qed.

Lemma re_sub_braces_no_close (inside : bool) (s : string) :
  contains "}" s = false -> contains "}" (re_sub_braces inside s) = false.
Proof.
  revert inside. induction s as [|c s IH]; intros inside; [now destruct inside |].
  rewrite contains_char_cons. intros H.
  apply orb_false_iff in H as [Hc Hs]. simpl.
  rewrite Ascii.eqb_sym, Hc, Hs, andb_false_r.
  destruct inside; [now apply IH |].
  now rewrite contains_char_cons, Hc, IH.
Qed.

Lemma has_tag_re_sub_braces (inside : bool) (s : string) :
  has_tag (re_sub_braces inside s) = false.
Proof.
  revert inside. induction s as [|c s IH]; intros inside; [now destruct inside |].
  simpl. destruct inside.
  - destruct (Ascii.eqb c "}"); apply IH.
  - destruct (Ascii.eqb c "{") eqn:Hc; simpl.
    + destruct (contains "}" s) eqn:Hs; [apply IH |].
      simpl. now rewrite Hc, (re_sub_braces_no_close false s Hs), IH.
    + now rewrite Hc, IH.
Qed.

Lemma has_tag_spec (s : string) : has_tag s = true <-> tag_in s.
Proof.
  split.
  - induction s as [|x s IH]; simpl; [discriminate |].
    rewrite orb_true_iff, andb_true_iff. intros [[Hx Hs] | H].
    + apply Ascii.eqb_eq in Hx as ->. apply contains_spec in Hs as (b & c & ->).
      now exists "", b, c.
    + destruct (IH H) as (a & b & c & ->). now exists (String x a), b, c.
  - intros (a & b & c & ->). induction a as [|x a IH].
    + change (has_tag ("" +:+ "{" +:+ b +:+ "}" +:+ c))
        with (contains "}" (b +:+ "}" +:+ c) || has_tag (b +:+ "}" +:+ c)).
      apply orb_true_iff. left. apply contains_spec. now exists b, c.
    + change (has_tag (String x a +:+ "{" +:+ b +:+ "}" +:+ c))
        with ((Ascii.eqb x "{" && contains "}" (a +:+ "{" +:+ b +:+ "}" +:+ c))
              || has_tag (a +:+ "{" +:+ b +:+ "}" +:+ c)).
      rewrite IH. apply orb_true_r.
Qed.

Lemma has_tag_false (s : string) : has_tag s = false <-> ~ tag_in s.
Proof.
  rewrite <- has_tag_spec. destruct (has_tag s); split; intros H; congruence.
Qed.

Lemma re_sub_braces_no_tag (s : string) :
  has_tag s = false -> re_sub_braces false s = s.
Proof.
  induction s as [|c s IH]; [reflexivity |]. simpl.
  intros H. apply orb_false_iff in H as [Hc Hs].
  now rewrite Hc, (IH Hs).
Qed.

Lemma re_sub_braces_inside (b c : string) :
  contains "}" b = false ->
  re_sub_braces true (b +:+ "}" +:+ c) = re_sub_braces false c.
Proof.
  induction b as [|x b IH]; [reflexivity |].
  rewrite contains_char_cons. intros H.
  apply orb_false_iff in H as [Hx Hb]. simpl.
  rewrite Ascii.eqb_sym, Hx. now apply IH.
Qed.

Lemma re_sub_braces_tag (a b c : string) :
  contains "{" a = false -> contains "}" b = false ->
  re_sub_braces false (a +:+ "{" +:+ b +:+ "}" +:+ c)
  = a +:+ re_sub_braces false c.
Proof.
  intros Ha Hb. induction a as [|x a IH].
  - change (re_sub_braces false ("" +:+ "{" +:+ b +:+ "}" +:+ c))
      with (if contains "}" (b +:+ "}" +:+ c)
            then re_sub_braces true (b +:+ "}" +:+ c)
            else String "{" (re_sub_braces false (b +:+ "}" +:+ c))).
    replace (contains "}" (b +:+ "}" +:+ c)) with true.
    + now apply re_sub_braces_inside.
    + symmetry. apply contains_spec. now exists b, c.
  - rewrite contains_char_cons in Ha.
    apply orb_false_iff in Ha as [Hx Ha].
    change (re_sub_braces false (String x a +:+ "{" +:+ b +:+ "}" +:+ c))
      with (if Ascii.eqb x "{" && contains "}" (a +:+ "{" +:+ b +:+ "}" +:+ c)
            then re_sub_braces true (a +:+ "{" +:+ b +:+ "}" +:+ c)
            else String x (re_sub_braces false (a +:+ "{" +:+ b +:+ "}" +:+ c))).
    rewrite Ascii.eqb_sym, Hx. cbn [andb]. now rewrite (IH Ha).
Qed.

(** X4: the removal of override tags.  A span from an opening brace to the
    first closing brace after it is removed and the text before it is
    kept; the result has no such span left, so that removing again changes
    nothing, and a text without such a span is returned as it is. *)
Theorem re_sub_braces_spans :
  (forall a b c,
     ~ occurs_in "{" a -> ~ occurs_in "}" b ->
     re_sub_braces false (a +:+ "{" +:+ b +:+ "}" +:+ c)
     = a +:+ re_sub_braces false c) /\
  (forall text, ~ tag_in text -> re_sub_braces false text = text) /\
  (forall text, ~ tag_in (re_sub_braces false text)) /\
  (forall text,
     re_sub_braces false (re_sub_braces false text)
     = re_sub_braces false text).
Proof.
  split; [| split; [| split]].
  - intros a b c Ha Hb. apply re_sub_braces_tag; now apply contains_false.
  - intros text H. now apply re_sub_braces_no_tag, has_tag_false.
  - intros text. apply has_tag_false, has_tag_re_sub_braces.
  - intros text. apply re_sub_braces_no_tag, has_tag_re_sub_braces.
Qed.

Lemma re_sub_braces_spans_witness :
  re_sub_braces false ("a}b" +:+ "{" +:+ "\an8{" +:+ "}" +:+ "c{d")
  = "a}b" +:+ re_sub_braces false "c{d" /\
  re_sub_braces false "c{d" = "c{d".
Proof.
  split.
  - apply (proj1 re_sub_braces_spans); apply contains_false; reflexivity.
  - apply (proj1 (proj2 re_sub_braces_spans)).
    apply has_tag_false. reflexivity.
Defined.

(** ** Line-break escapes *)

Lemma string_pair_ind (P : string -> Prop) :
  P "" -> (forall c, P (String c "")) ->
  (forall c d u, P u -> P (String d u) -> P (String c (String d u))) ->
  forall s, P s.
Proof.
  intros H0 H1 H2.
  assert (H : forall s, P s /\ forall c, P (String c s)).
  { induction s as [|d u [Hu Hdu]]; split; auto. }
  intros s. apply H.
Qed.

Lemma replace_pair_cons2 (a1 a2 b c d : ascii) (u : string) :
  replace_pair a1 a2 b (String c (String d u))
  = if Ascii.eqb c a1 && Ascii.eqb d a2
    then String b (replace_pair a1 a2 b u)
    else String c (replace_pair a1 a2 b (String d u)).
Proof. reflexivity. Qed.

Lemma replace_pair_head (a1 a2 b d : ascii) (u : string) :
  exists h r,
    replace_pair a1 a2 b (String d u) = String h r /\ (h = b \/ h = d).
Proof.
  destruct u as [|e u]; [now exists d, ""; auto |].
  rewrite replace_pair_cons2. destruct (_ && _); eexists _, _; eauto.
Qed.

Lemma contains_pair_cons (p1 p2 c : ascii) (s : string) :
  contains (String p1 (String p2 "")) (String c s)
  = (Ascii.eqb p1 c && startswith (String p2 "") s)
    || contains (String p1 (String p2 "")) s.
Proof. now rewrite contains_cons, startswith_cons. Qed.

Lemma startswith_char (p c : ascii) (s : string) :
  startswith (String p "") (String c s) = Ascii.eqb p c.
Proof. now rewrite startswith_cons, startswith_empty, andb_true_r. Qed.

Section ReplacePair.

Variables a1 a2 b : ascii.

(** A pair that does not involve the replacement character is not
    created by the replacement. *)
Lemma replace_pair_keeps_no_pair (p1 p2 : ascii) (s : string) :
  b <> p1 -> b <> p2 ->
  contains (String p1 (String p2 "")) s = false ->
  contains (String p1 (String p2 "")) (replace_pair a1 a2 b s) = false.
Proof.
  intros Hb1 Hb2. induction s as [| c | c d u IHu IHdu] using string_pair_ind;
    [auto | auto |].
  rewrite contains_pair_cons, startswith_char. intros H.
  apply orb_false_iff in H as [Hcd Hdu].
  pose proof Hdu as Hu. rewrite contains_pair_cons in Hu.
  apply orb_false_iff in Hu as [_ Hu].
  rewrite replace_pair_cons2. destruct (Ascii.eqb c a1 && Ascii.eqb d a2).
  - rewrite contains_pair_cons, (IHu Hu).
    apply Ascii.eqb_neq in Hb1. now rewrite Ascii.eqb_sym, Hb1.
  - rewrite contains_pair_cons, (IHdu Hdu), orb_false_r.
    destruct (replace_pair_head a1 a2 b d u) as (h & r & -> & [-> | ->]);
      rewrite startswith_char.
    + apply Ascii.eqb_neq in Hb2. rewrite (Ascii.eqb_sym p2), Hb2.
      apply andb_false_r.
    + exact Hcd.
Qed.

(** The pair that is replaced does not occur in the result. *)
Lemma replace_pair_removes (s : string) :
  b <> a1 -> b <> a2 ->
  contains (String a1 (String a2 "")) (replace_pair a1 a2 b s) = false.
Proof.
  intros Hb1 Hb2. induction s as [| c | c d u IHu IHdu] using string_pair_ind;
    [reflexivity | |].
  - simpl replace_pair. rewrite contains_pair_cons.
    now rewrite andb_false_r.
  - rewrite replace_pair_cons2.
    destruct (Ascii.eqb_spec c a1) as [-> | Hc]; simpl andb; cbv iota.
    + destruct (Ascii.eqb_spec d a2) as [-> | Hd].
      * rewrite contains_pair_cons, IHu.
        apply Ascii.eqb_neq in Hb1. now rewrite Ascii.eqb_sym, Hb1.
      * rewrite contains_pair_cons, IHdu, orb_false_r.
        destruct (replace_pair_head a1 a2 b d u) as (h & r & -> & [-> | ->]);
          rewrite startswith_char, andb_false_iff; right;
          apply Ascii.eqb_neq; congruence.
    + rewrite contains_pair_cons, IHdu, orb_false_r.
      apply andb_false_iff. left. apply Ascii.eqb_neq. congruence.
Qed.

(** A character that is neither replaced nor the replacement occurs in the
    result exactly when it occurs in the text. *)
Lemma replace_pair_contains_char (x : ascii) (s : string) :
  x <> a1 -> x <> a2 -> x <> b ->
  contains (String x "") (replace_pair a1 a2 b s) = contains (String x "") s.
Proof.
  intros H1 H2 Hb. apply Ascii.eqb_neq in H1, H2, Hb.
  induction s as [| c | c d u IHu IHdu] using string_pair_ind;
    [reflexivity | reflexivity |].
  rewrite replace_pair_cons2.
  destruct (Ascii.eqb_spec c a1) as [-> | Hc]; simpl andb; cbv iota.
  - destruct (Ascii.eqb_spec d a2) as [-> | Hd].
    + now rewrite !contains_char_cons, IHu, H1, H2, Hb.
    + now rewrite !(contains_char_cons x a1), IHdu.
  - now rewrite !(contains_char_cons x c), IHdu.
Qed.

Lemma replace_pair_has_tag (s : string) :
  "{"%char <> a1 -> "{"%char <> a2 -> "{"%char <> b ->
  "}"%char <> a1 -> "}"%char <> a2 -> "}"%char <> b ->
  has_tag (replace_pair a1 a2 b s) = has_tag s.
Proof.
  intros Ho1 Ho2 Hob Hc1 Hc2 Hcb.
  assert (Hclose : forall t, contains "}" (replace_pair a1 a2 b t) = contains "}" t)
    by (intros t; now apply replace_pair_contains_char).
  assert (Hopen : forall x, "{"%char <> x -> Ascii.eqb x "{" = false)
    by (intros x Hx; apply Ascii.eqb_neq; congruence).
  induction s as [| c | c d u IHu IHdu] using string_pair_ind;
    [reflexivity | reflexivity |].
  rewrite replace_pair_cons2.
  destruct (Ascii.eqb_spec c a1) as [-> | Hc]; simpl andb; cbv iota.
  - destruct (Ascii.eqb_spec d a2) as [-> | Hd].
    + simpl has_tag. now rewrite IHu, !Hopen.
    + change (has_tag (String a1 (replace_pair a1 a2 b (String d u))))
        with ((Ascii.eqb a1 "{" && contains "}" (replace_pair a1 a2 b (String d u)))
              || has_tag (replace_pair a1 a2 b (String d u))).
      now rewrite Hclose, IHdu.
  - change (has_tag (String c (replace_pair a1 a2 b (String d u))))
      with ((Ascii.eqb c "{" && contains "}" (replace_pair a1 a2 b (String d u)))
            || has_tag (replace_pair a1 a2 b (String d u))).
    now rewrite Hclose, IHdu.
Qed.

End ReplacePair.

Lemma clean_text_clean (text : string) : clean (clean_text text).
Proof.
  unfold clean, clean_text. repeat split.
  - apply has_tag_false.
    rewrite !replace_pair_has_tag by discriminate.
    apply has_tag_re_sub_braces.
  - apply contains_false.
    apply replace_pair_keeps_no_pair; try discriminate.
    apply replace_pair_removes; discriminate.
  - apply contains_false. apply replace_pair_removes; discriminate.
Qed.

Lemma strip_substring (s : string) : exists x y, s = x +:+ strip s +:+ y.
Proof.
  unfold strip.
  destruct (lstrip_suffix s) as [x Hx].
  destruct (rstrip_prefix (lstrip s)) as [y Hy].
  exists x, y. rewrite Hx at 1. now rewrite Hy at 1.
Qed.

Lemma tag_in_strip (s : string) : tag_in (strip s) -> tag_in s.
Proof.
  intros (a & b & c & H). destruct (strip_substring s) as (x & y & Hs).
  exists (x +:+ a), b, (c +:+ y). rewrite Hs, H.
  now rewrite !app_assoc_str.
Qed.

Lemma strip_clean (s : string) : clean s -> clean (strip s).
Proof.
  intros (Ht & HN & Hn). repeat split; intros H.
  - now apply Ht, tag_in_strip.
  - now apply HN, occurs_in_strip.
  - now apply Hn, occurs_in_strip.
Qed.

(** ** The shape of the ASS cues *)

Lemma convert_timestamp_nonempty (ts : string) :
  ts <> "" -> convert_timestamp ts <> "".
Proof.
  intros Hne. unfold convert_timestamp.
  destruct (match_timestamp ts) as [[[[h m] s] cs]|]; [| exact Hne].
  destruct (format_02d_cases (int h)) as [[_ ->] | [Hl ->]].
  - discriminate.
  - destruct (str (int h)); simpl in *; [lia | discriminate].
Qed.

Lemma ass_dialogue_shape (fmt : list string) (line : string) :
  ass_dialogue fmt line = [] \/
  exists timing text,
    ass_dialogue fmt line = cue_lines (timing, text) /\
    timing_line timing /\ clean text.
Proof.
  unfold ass_dialogue.
  destruct (_ <? _)%nat; [now left |].
  set (dialogue := dict_zip fmt _).
  destruct (String.eqb_spec (dict_get dialogue "start") "") as [_ | Hs];
    [now left |].
  destruct (String.eqb_spec (dict_get dialogue "end") "") as [_ | He];
    [now left |].
  destruct (String.eqb (dict_get dialogue "text") ""); [now left |].
  simpl orb. cbv iota.
  destruct (String.eqb (strip (clean_text (dict_get dialogue "text"))) "");
    [now left | right].
  eexists _, _. split; [reflexivity |]. split.
  - eexists _, _. split; [reflexivity |].
    split; now apply convert_timestamp_nonempty.
  - apply strip_clean, clean_text_clean.
Qed.

Section CueInvariant.

Variable Q : string * string -> Prop.

Hypothesis dialogue_Q : forall fmt line,
  ass_dialogue fmt line = [] \/
  exists cue, ass_dialogue fmt line = cue_lines cue /\ Q cue.

Lemma ass_step_cues_with (st : ass_state) (raw : string)
    (cues : list (string * string)) :
  cues_with Q (vtt_lines st) cues ->
  exists more, cues_with Q (vtt_lines (final (ass_step st raw))) (cues ++ more).
Proof.
  intros H.
  assert (Hsame : exists more, cues_with Q (vtt_lines st) (cues ++ more))
    by (exists []; now rewrite app_nil_r).
  unfold ass_step.
  destruct (String.eqb _ _); [exact Hsame |].
  destruct (_ && _); [exact Hsame |].
  destruct (in_events st); [| exact Hsame].
  destruct (startswith "format:" _); [exact Hsame |].
  destruct (startswith "dialogue:" _); [| exact Hsame].
  destruct (format_line st) as [[|f fmt]|]; try exact Hsame.
  simpl.
  destruct (dialogue_Q (f :: fmt) (strip raw)) as [-> | (cue & -> & Hcue)].
  - now rewrite app_nil_r.
  - exists [cue]. destruct H as [-> Hall]. split.
    + rewrite flat_map_app. destruct cue. reflexivity.
    + apply Forall_app. split; [exact Hall | now constructor].
Qed.

Lemma ass_loop_cues_with (lines : list string) (st : ass_state)
    (cues : list (string * string)) :
  cues_with Q (vtt_lines st) cues ->
  exists more, cues_with Q (vtt_lines (final (ass_loop st lines))) (cues ++ more).
Proof.
  revert st cues. induction lines as [|raw lines IH]; intros st cues H; simpl.
  - exists []. now rewrite app_nil_r.
  - destruct (ass_step_cues_with st raw cues H) as [m1 H1].
    destruct (ass_step st raw) as [st' | st']; simpl in *.
    + destruct (IH st' _ H1) as [m2 H2]. exists (m1 ++ m2).
      now rewrite app_assoc.
    + now exists m1.
Qed.

Lemma ass_lines_cues_with (ass_content : string) :
  exists cues, cues_with Q (ass_lines ass_content) cues.
Proof.
  destruct (ass_loop_cues_with (split LF ass_content) ass_init [])
    as [cues H]; [now split |].
  now exists cues.
Qed.

End CueInvariant.

(** X5: every cue that [ass_to_vtt] emits has a timing line with a
    non-empty start and end around the arrow, and a text in which no
    override tag, that is no brace span, and no \N or \n escape is left. *)
Theorem ass_cue_shape (ass_content : string) :
  exists cues : list (string * string),
    ass_lines ass_content = ["WEBVTT"; ""] ++ flat_map cue_lines cues /\
    Forall (fun cue =>
              timing_line cue.1 /\
              ~ tag_in cue.2 /\
              ~ occurs_in "\N" cue.2 /\
              ~ occurs_in "\n" cue.2) cues.
Proof.
  apply (ass_lines_cues_with (fun cue => timing_line cue.1 /\ clean cue.2)).
  intros fmt line.
  destruct (ass_dialogue_shape fmt line) as [E | (timing & text & E & Ht & Hc)];
    [now left | right].
  exists (timing, text). auto.
Qed.

(** ** Rows and columns *)

Lemma cons_head_length (c : ascii) (l : list string) :
  l <> [] -> length (cons_head c l) = length l.
Proof. now destruct l. Qed.

Lemma split_max_nonempty (sep : ascii) (s : string) (n : nat) :
  split_max sep s n <> [].
Proof.
  revert n. induction s as [|c s IH]; intros [|n]; simpl; try discriminate.
  destruct (Ascii.eqb c sep); [discriminate |].
  specialize (IH (S n)). now destruct (split_max sep s (S n)).
Qed.

Lemma split_max_length (sep : ascii) (s : string) (n : nat) :
  length (split_max sep s n) = S (Nat.min n (count_char sep s)).
Proof.
  revert n. induction s as [|c s IH]; intros [|n]; simpl; try reflexivity.
  destruct (Ascii.eqb c sep); simpl.
  - now rewrite IH.
  - rewrite cons_head_length by apply split_max_nonempty. now rewrite IH.
Qed.

Lemma foldl_insert_notin (l : list (string * string)) (d : gmap string string)
    (k : string) :
  k ∉ l.*1 ->
  foldl (fun d kv => <[kv.1 := kv.2]> d) d l !! k = d !! k.
Proof.
  revert d. induction l as [|[k0 v0] l IH]; intros d Hk; simpl; [reflexivity |].
  simpl in Hk. apply not_elem_of_cons in Hk as [Hne Hk].
  rewrite (IH _ Hk). now apply lookup_insert_ne.
Qed.

Lemma zip_keys_notin (keys values : list string) (k : string) :
  k ∉ keys -> k ∉ (zip keys values).*1.
Proof.
  revert values. induction keys as [|k0 keys IH]; intros [|v values] Hk;
    simpl; try apply not_elem_of_nil.
  apply not_elem_of_cons in Hk as [Hne Hk].
  apply not_elem_of_cons. split; [exact Hne | now apply IH].
Qed.

Lemma dict_get_missing (keys values : list string) (k : string) :
  k ∉ keys -> dict_get (dict_zip keys values) k = "".
Proof.
  intros Hk. unfold dict_get, dict_zip.
  rewrite foldl_insert_notin by now apply zip_keys_notin.
  now rewrite lookup_empty.
Qed.

Lemma dict_zip_lookup (keys values : list string) (i : nat) (k v : string)
    (d : gmap string string) :
  NoDup keys -> keys !! i = Some k -> values !! i = Some v ->
  foldl (fun d kv => <[kv.1 := kv.2]> d) d (zip keys values) !! k = Some v.
Proof.
  intros Hnd. revert values i d.
  induction Hnd as [|k0 keys Hk0 Hnd IH]; intros [|v0 values] [|i] d Hk Hv;
    try discriminate; simpl in *.
  - injection Hk as ->. injection Hv as ->.
    rewrite foldl_insert_notin by now apply zip_keys_notin.
    apply lookup_insert_eq.
  - now apply (IH values i).
Qed.

Lemma dict_get_at (keys values : list string) (i : nat) (k v : string) :
  NoDup keys -> keys !! i = Some k -> values !! i = Some v ->
  dict_get (dict_zip keys values) k = v.
Proof.
  intros Hnd Hk Hv. unfold dict_get, dict_zip.
  now rewrite (dict_zip_lookup keys values i k v ∅ Hnd Hk Hv).
Qed.

Lemma split_max_field (sep : ascii) (f rest : string) (n : nat) :
  contains (String sep "") f = false ->
  split_max sep (f +:+ String sep rest) (S n) = f :: split_max sep rest n.
Proof.
  induction f as [|c f IH]; intros H.
  - simpl. now rewrite Ascii.eqb_refl.
  - rewrite contains_char_cons in H. apply orb_false_iff in H as [Hc Hf].
    simpl. rewrite Ascii.eqb_sym, Hc. now rewrite (IH Hf).
Qed.

Lemma join_snoc_cons (sep f : string) (fields : list string) (last : string) :
  join sep (f :: fields ++ [last]) = f +:+ sep +:+ join sep (fields ++ [last]).
Proof. now destruct fields. Qed.

(** Splitting at most as often as there are fields before the last one
    gives back the fields; the last one keeps its separators. *)
Lemma split_max_join (sep : ascii) (fields : list string) (last : string) :
  Forall (fun f => contains (String sep "") f = false) fields ->
  split_max sep (join (String sep "") (fields ++ [last])) (length fields)
  = fields ++ [last].
Proof.
  intros H. induction H as [|f fields Hf _ IH]; [now destruct last |].
  change ((f :: fields) ++ [last]) with (f :: fields ++ [last]).
  rewrite join_snoc_cons. simpl length.
  change (f +:+ String sep "" +:+ join (String sep "") (fields ++ [last]))
    with (f +:+ ("" +:+ String sep (join (String sep "") (fields ++ [last])))).
  simpl String.append at 2.
  now rewrite (split_max_field sep f _ _ Hf), IH.
Qed.

(** X6: rows that give no cue.  A Dialogue row with fewer fields than the
    Format line has columns is skipped, and so is every row when the Format
    line has no column named start, end or text. *)
Theorem ass_dialogue_skipped :
  (forall fmt line,
     S (count_char "," (slice_from 9 line)) < length fmt ->
     ass_dialogue fmt line = []) /\
  (forall fmt line k,
     In k ["start"; "end"; "text"] -> ~ In k fmt ->
     ass_dialogue fmt line = []).
Proof.
  split.
  - intros fmt line H. unfold ass_dialogue.
    rewrite split_max_length.
    replace (_ <? _)%nat with true; [reflexivity |].
    symmetry. apply Nat.ltb_lt. lia.
  - intros fmt line k Hk Hfmt. unfold ass_dialogue.
    destruct (_ <? _)%nat; [reflexivity |].
    rewrite <- list_elem_of_In in Hfmt.
    simpl in Hk. destruct Hk as [<- | [<- | [<- | []]]];
      rewrite (dict_get_missing fmt _ _ Hfmt); simpl;
      rewrite ?orb_true_r; reflexivity.
Qed.

Lemma ass_dialogue_skipped_witness :
  ass_dialogue ["layer"; "start"; "end"; "text"]
               "Dialogue: 0,0:00:01.00,Hello" = [] /\
  ass_dialogue ["start"; "end"; "caption"]
               "Dialogue: 0:00:01.00,0:00:02.00,Hello" = [].
Proof.
  split.
  - apply (proj1 ass_dialogue_skipped). simpl. lia.
  - apply (proj2 ass_dialogue_skipped _ _ "text"); [simpl; tauto |].
    simpl. intros [H | [H | [H | []]]]; discriminate H.
Defined.

(** X7: a row with as many fields as the Format line has columns.  When
    the column names are distinct and only the last field has commas, the
    fields are mapped to the columns by position, the last one whole, and
    the cue is made from the fields under start, end and text. *)
Theorem ass_dialogue_fields (fmt fields : list string) (last line : string)
    (i_start i_end i_text : nat) (start end_ text : string) :
  NoDup fmt ->
  length fmt = S (length fields) ->
  Forall (fun f => ~ occurs_in "," f) fields ->
  slice_from 9 line = join "," (fields ++ [last]) ->
  fmt !! i_start = Some "start" -> (fields ++ [last]) !! i_start = Some start ->
  fmt !! i_end = Some "end" -> (fields ++ [last]) !! i_end = Some end_ ->
  fmt !! i_text = Some "text" -> (fields ++ [last]) !! i_text = Some text ->
  ass_dialogue fmt line = cue_of_fields start end_ text.
Proof.
  intros Hnd Hlen Hfields Hline Hks Hvs Hke Hve Hkt Hvt.
  unfold ass_dialogue, cue_of_fields.
  rewrite Hline, Hlen. simpl Nat.sub. rewrite Nat.sub_0_r.
  rewrite split_max_join
    by (eapply Forall_impl; [exact Hfields | intros f; apply contains_false]).
  replace (_ <? _)%nat with false
    by (symmetry; apply Nat.ltb_ge; rewrite length_app; simpl; lia).
  rewrite (dict_get_at fmt _ i_start "start" start Hnd Hks Hvs).
  rewrite (dict_get_at fmt _ i_end "end" end_ Hnd Hke Hve).
  now rewrite (dict_get_at fmt _ i_text "text" text Hnd Hkt Hvt).
Qed.

Lemma ass_dialogue_fields_witness :
  ass_dialogue ["layer"; "start"; "end"; "text"]
               "Dialogue: 0,0:00:01.00,0:00:02.00,Yes, no, maybe"
  = cue_of_fields "0:00:01.00" "0:00:02.00" "Yes, no, maybe".
Proof.
  apply (ass_dialogue_fields
           ["layer"; "start"; "end"; "text"]
           [" 0"; "0:00:01.00"; "0:00:02.00"] "Yes, no, maybe" _ 1 2 3);
    try reflexivity.
  - repeat constructor; rewrite list_elem_of_In; simpl;
      intuition discriminate.
  - repeat constructor; apply contains_false; reflexivity.
Defined.

(** ** An Events header inside the events section *)

Lemma ass_step_events_again (st : ass_state) (raw : string) :
  in_events st = true -> events_header raw = true ->
  ass_step st raw = Continue st.
Proof.
  unfold events_header, ass_step. intros Hin ->.
  destruct st as [ev fl out]. simpl in *. now subst ev.
Qed.

(** X8: in events mode a further Events header neither ends the section
    nor resets the schema: the result is that of the text without the
    line, so rows after it are still read under the Format line before
    it. *)
Theorem ass_events_header_repeated
    (content content' : string) (pre post : list string) (hdr : string)
    (st : ass_state) :
  split LF content = pre ++ hdr :: post ->
  split LF content' = pre ++ post ->
  ass_loop ass_init pre = Continue st -> in_events st = true ->
  events_header hdr = true ->
  ass_to_vtt content = ass_to_vtt content'.
Proof.
  intros Hc Hc' Hpre Hin Hhdr. unfold ass_to_vtt, ass_lines.
  rewrite Hc, Hc', !ass_loop_app, Hpre. simpl.
  now rewrite (ass_step_events_again st hdr Hin Hhdr).
Qed.

Lemma ass_events_header_repeated_witness :
  ass_to_vtt (join NL ["[Events]"; "Format: Start, End, Text"; " [events]";
                       "Dialogue: 0:00:01.00,0:00:02.00,Hi"])
  = ass_to_vtt (join NL ["[Events]"; "Format: Start, End, Text";
                         "Dialogue: 0:00:01.00,0:00:02.00,Hi"]).
Proof.
  apply (ass_events_header_repeated _ _
           ["[Events]"; "Format: Start, End, Text"]
           ["Dialogue: 0:00:01.00,0:00:02.00,Hi"] " [events]"
           {| in_events := true;
              format_line := Some ["start"; "end"; "text"];
              vtt_lines := ["WEBVTT"; ""] |});
    vm_compute; reflexivity.
Defined.

(** ** Blocks of a well-formed SRT text *)

Lemma trailing_space_app (a b : string) :
  b <> "" -> trailing_space (a +:+ b) = trailing_space b.
Proof.
  intros Hb. induction a as [|c a IH]; [reflexivity |].
  change (String c a +:+ b) with (String c (a +:+ b)).
  simpl trailing_space. rewrite IH.
  destruct (a +:+ b) eqn:E; [| reflexivity].
  destruct a; [simpl in E; contradiction | discriminate].
Qed.

Lemma leading_space_app (a b : string) :
  a <> "" -> leading_space (a +:+ b) = leading_space a.
Proof. destruct a; [contradiction | reflexivity]. Qed.

Lemma join_trimmed (sep : string) (blocks : list string) :
  sep <> "" -> blocks <> [] -> Forall trimmed blocks ->
  trimmed (join sep blocks).
Proof.
  intros Hsep Hne H. induction H as [|b blocks Hb Hrest IH]; [contradiction |].
  destruct blocks as [|b' blocks]; [exact Hb |].
  rewrite join_cons2. destruct Hb as (Hb & Hl & Ht).
  assert (Htail : trimmed (join sep (b' :: blocks))) by (apply IH; discriminate).
  destruct Htail as (Hj & Hjl & Hjt).
  assert (Hsj : sep +:+ join sep (b' :: blocks) <> "")
    by (destruct sep; [contradiction | discriminate]).
  repeat split.
  - destruct b; [contradiction | discriminate].
  - now rewrite leading_space_app.
  - now rewrite !trailing_space_app.
Qed.

Lemma re_split_blank_in_run (s : string) :
  startswith NL s = false ->
  re_split_blank true s = re_split_blank false s.
Proof.
  destruct s as [|c s]; [reflexivity |]. unfold NL.
  rewrite startswith_char, Ascii.eqb_sym. intros H.
  simpl re_split_blank. now rewrite H.
Qed.

Lemma leading_space_no_lf (s : string) :
  leading_space s = false -> startswith NL s = false.
Proof.
  destruct s as [|c s]; [reflexivity |]. unfold NL.
  rewrite startswith_char. simpl leading_space.
  destruct (Ascii.eqb_spec LF c) as [<- | _]; [discriminate | reflexivity].
Qed.

Lemma re_split_blank_block (b rest : string) :
  contains blank_line b = false -> trailing_space b = false ->
  leading_space rest = false ->
  re_split_blank false (b +:+ blank_line +:+ rest)
  = b :: re_split_blank false rest.
Proof.
  intros Hb Ht Hrest. induction b as [|c b IH].
  - change ("" +:+ blank_line +:+ rest) with (String LF (String LF rest)).
    simpl re_split_blank. rewrite startswith_empty.
    f_equal. apply re_split_blank_in_run.
    now apply leading_space_no_lf.
  - rewrite contains_cons, startswith_blank_line in Hb.
    apply orb_false_iff in Hb as [Hhead Hb].
    assert (Ht' : trailing_space b = false).
    { destruct b; [reflexivity | exact Ht]. }
    change (String c b +:+ blank_line +:+ rest)
      with (String c (b +:+ blank_line +:+ rest)).
    specialize (IH Hb Ht').
    assert (Hnext : Ascii.eqb c LF = true ->
                    startswith NL (b +:+ blank_line +:+ rest) = false).
    { intros Hc. rewrite Hc in Hhead.
      destruct b as [|d b].
      - apply Ascii.eqb_eq in Hc. subst c. discriminate Ht.
      - change (String d b +:+ blank_line +:+ rest)
          with (String d (b +:+ blank_line +:+ rest)).
        unfold NL in *. now rewrite startswith_char in *. }
    set (t := b +:+ blank_line +:+ rest) in *.
    simpl re_split_blank. rewrite IH.
    destruct (Ascii.eqb c LF); [| reflexivity].
    now rewrite Hnext.
Qed.

Lemma re_split_blank_join (blocks : list string) :
  blocks <> [] ->
  Forall (fun b => trimmed b /\ contains blank_line b = false) blocks ->
  re_split_blank false (join blank_line blocks) = blocks.
Proof.
  intros Hne H. induction H as [|b blocks [Hb Hc] Hrest IH]; [contradiction |].
  destruct blocks as [|b' blocks]; [now apply re_split_blank_single |].
  rewrite join_cons2.
  assert (Htail : trimmed (join blank_line (b' :: blocks))).
  { apply join_trimmed; [discriminate | discriminate |].
    eapply Forall_impl; [exact Hrest | now intros x [Hx _]]. }
  rewrite re_split_blank_block;
    [| exact Hc | apply Hb | apply Htail].
  f_equal. apply IH. discriminate.
Qed.

(** X9: a text made of trimmed blocks without blank lines in them, joined
    by blank lines, is split into exactly these blocks, and the document
    is the header followed by what each block gives, in the order of the
    text. *)
Theorem srt_blocks_of_join (blocks : list string) :
  blocks <> [] ->
  Forall (fun b => trimmed b /\ ~ occurs_in blank_line b) blocks ->
  srt_blocks (join blank_line blocks) = blocks /\
  srt_to_vtt (join blank_line blocks)
  = join NL (["WEBVTT"; ""] ++ flat_map srt_block blocks).
Proof.
  intros Hne H.
  assert (H' : Forall (fun b => trimmed b /\ contains blank_line b = false) blocks).
  { eapply Forall_impl; [exact H |].
    intros b [Hb Hc]. split; [exact Hb | now apply contains_false]. }
  assert (Htr : trimmed (join blank_line blocks)).
  { apply join_trimmed; [discriminate | exact Hne |].
    eapply Forall_impl; [exact H | now intros x [Hx _]]. }
  assert (Hblocks : srt_blocks (join blank_line blocks) = blocks).
  { unfold srt_blocks. rewrite (strip_trimmed _ Htr).
    now apply re_split_blank_join. }
  split; [exact Hblocks |].
  unfold srt_to_vtt, srt_lines.
  replace (String.eqb (join blank_line blocks) "") with false
    by (symmetry; apply String.eqb_neq; apply Htr).
  now rewrite Hblocks, foldl_append_blocks.
Qed.

Lemma srt_blocks_of_join_witness :
  srt_blocks (join blank_line
    [join NL ["1"; "00:00:01,000 --> 00:00:02,000"; "Hello"];
     join NL ["2"; "00:00:03,000 --> 00:00:04,000"; "World"]])
  = [join NL ["1"; "00:00:01,000 --> 00:00:02,000"; "Hello"];
     join NL ["2"; "00:00:03,000 --> 00:00:04,000"; "World"]].
Proof.
  apply srt_blocks_of_join; [discriminate |].
  repeat constructor; try discriminate; apply contains_false; reflexivity.
Defined.

(** ** The shape of the SRT cues *)











(** * The language tables *)

Lemma lang_map_search_extends :
  lang_map_search
  = <["hr" := "hrv"]> (<["sr" := "srp"]> (<["bs" := "bos"]> lang_map_download)).
Proof. vm_compute. reflexivity. Qed.

Lemma lang_map_download_misses :
  lang_map_download !! "hr" = None /\
  lang_map_download !! "sr" = None /\
  lang_map_download !! "bs" = None.
Proof. repeat split; vm_compute; reflexivity. Qed.

(** X11: the two scripts agree on the code of every language but three.
    For hr, sr and bs the search script has an entry and asks for hrv, srp
    and bos, while the download script has none and passes the two-letter
    code on as it is. *)
Theorem lang_code_search_download (language : string) :
  (language <> "hr" -> language <> "sr" -> language <> "bs" ->
   lang_code lang_map_search language = lang_code lang_map_download language) /\
  (In language ["hr"; "sr"; "bs"] ->
   lang_code lang_map_download language = language /\
   lang_code lang_map_search language <> language) /\
  lang_code lang_map_search "hr" = "hrv" /\
  lang_code lang_map_search "sr" = "srp" /\
  lang_code lang_map_search "bs" = "bos".
Proof.
  split; [| split; [| repeat split; vm_compute; reflexivity]].
  - intros Hhr Hsr Hbs. unfold lang_code.
    rewrite lang_map_search_extends.
    now rewrite !lookup_insert_ne by congruence.
  - destruct lang_map_download_misses as (Hhr & Hsr & Hbs).
    unfold lang_code.
    intros [<- | [<- | [<- | []]]].
    + rewrite Hhr. split; [reflexivity | vm_compute; discriminate].
    + rewrite Hsr. split; [reflexivity | vm_compute; discriminate].
    + rewrite Hbs. split; [reflexivity | vm_compute; discriminate].
Qed.

Lemma lang_code_search_download_witness :
  lang_code lang_map_search "de" = lang_code lang_map_download "de" /\
  lang_code lang_map_download "hr" = "hr" /\
  lang_code lang_map_search "hr" = "hrv".
Proof.
  split; [| split].
  - apply (proj1 (lang_code_search_download "de")); discriminate.
  - apply (proj1 (proj2 (lang_code_search_download "hr"))). simpl. tauto.
  - apply (proj1 (proj2 (proj2 (lang_code_search_download "hr")))).
Defined.

Lemma lang_map_search_shape :
  map_Forall (fun k v => String.length k = 2 /\ String.length v = 3)
             lang_map_search.
Proof.
  apply map_Forall_to_list. vm_compute. repeat constructor.
Qed.

Lemma lang_map_download_shape :
  map_Forall (fun k v => String.length k = 2 /\ String.length v = 3)
             lang_map_download.
Proof.
  apply map_Forall_to_list. vm_compute. repeat constructor.
Qed.

Lemma lang_code_fixed (lang_map : gmap string string) (language : string) :
  map_Forall (fun k v => String.length k = 2 /\ String.length v = 3) lang_map ->
  lang_code lang_map (lang_code lang_map language) = lang_code lang_map language.
Proof.
  intros Hshape. unfold lang_code.
  destruct (lang_map !! language) as [v|] eqn:E; simpl; [| now rewrite E].
  destruct (Hshape _ _ E) as [_ Hv].
  destruct (lang_map !! v) as [w|] eqn:Ev; [| reflexivity].
  destruct (Hshape _ _ Ev) as [Hk _]. lia.
Qed.

(** X12: in both tables every entry takes a code of two letters to a code
    of three, so no result of the table is itself an entry: mapping a code
    twice is mapping it once, and a code without an entry, a three-letter
    code among them, is passed on as it is. *)
Theorem lang_code_idempotent (language : string) :
  lang_code lang_map_search (lang_code lang_map_search language)
  = lang_code lang_map_search language /\
  lang_code lang_map_download (lang_code lang_map_download language)
  = lang_code lang_map_download language /\
  (String.length language <> 2 ->
   lang_code lang_map_search language = language /\
   lang_code lang_map_download language = language).
Proof.
  split; [apply lang_code_fixed, lang_map_search_shape |].
  split; [apply lang_code_fixed, lang_map_download_shape |].
  intros Hlen. unfold lang_code. split.
  - destruct (lang_map_search !! language) as [v|] eqn:E; [| reflexivity].
    destruct (lang_map_search_shape _ _ E). contradiction.
  - destruct (lang_map_download !! language) as [v|] eqn:E; [| reflexivity].
    destruct (lang_map_download_shape _ _ E). contradiction.
Qed.

Lemma lang_code_idempotent_witness :
  lang_code lang_map_search "eng" = "eng" /\
  lang_code lang_map_download "eng" = "eng".
Proof.
  apply (proj2 (proj2 (lang_code_idempotent "eng"))). simpl. lia.
Defined.

(** * The order of the search results *)

Lemma insert_result_perm (x : search_result) (l : list search_result) :
  insert_result x l ≡ₚ x :: l.
Proof.
  induction l as [|y l IH]; simpl; [reflexivity |].
  destruct (downloads y <=? downloads x)%Z; [reflexivity |].
  rewrite IH. apply Permutation_swap.
Qed.

Lemma sort_results_perm (l : list search_result) : sort_results l ≡ₚ l.
Proof.
  induction l as [|x l IH]; simpl; [reflexivity |].
  now rewrite insert_result_perm, IH.
Qed.

Lemma insert_result_sorted (x : search_result) (l : list search_result) :
  StronglySorted (fun a b => (downloads b <= downloads a)%Z) l ->
  StronglySorted (fun a b => (downloads b <= downloads a)%Z) (insert_result x l).
Proof.
  induction 1 as [|y l Hl IH Hy]; simpl; [repeat constructor |].
  destruct (Z.leb_spec (downloads y) (downloads x)) as [Hle | Hlt].
  - constructor; [now constructor |]. constructor; [exact Hle |].
    eapply Forall_impl; [exact Hy |]. simpl. intros b Hb. lia.
  - constructor; [exact IH |].
    rewrite insert_result_perm. constructor; [lia | exact Hy].
Qed.

Lemma insert_result_filter (d : Z) (x : search_result) (l : list search_result) :
  filter (fun r => downloads r = d) (insert_result x l)
  = filter (fun r => downloads r = d) (x :: l).
Proof.
  induction l as [|y l IH]; simpl; [reflexivity |].
  destruct (Z.leb_spec (downloads y) (downloads x)) as [Hle | Hlt];
    [reflexivity |].
  rewrite (filter_cons _ y), IH, !filter_cons.
  repeat case_decide; try reflexivity. lia.
Qed.

(** X13: the results are put out in descending order of their downloads:
    the sorted list has the same entries, each as often as before, no entry
    has fewer downloads than one after it, and entries with the same
    number of downloads keep the order the providers gave them in. *)
Theorem sort_results_stable (results : list search_result) :
  sort_results results ≡ₚ results /\
  StronglySorted (fun a b => (downloads b <= downloads a)%Z)
                 (sort_results results) /\
  (forall d,
     filter (fun r => downloads r = d) (sort_results results)
     = filter (fun r => downloads r = d) results).
Proof.
  split; [apply sort_results_perm | split].
  - induction results as [|x l IH]; simpl; [constructor |].
    now apply insert_result_sorted.
  - intros d. induction results as [|x l IH]; simpl; [reflexivity |].
    now rewrite insert_result_filter, !filter_cons, IH.
Qed.

(** * Settings by path *)

Import Admin.

Lemma split_nonempty (sep : ascii) (s : string) : split sep s <> [].
Proof.
  induction s as [|c s IH]; simpl; [discriminate |].
  destruct (Ascii.eqb c sep); [discriminate |].
  now destruct (split sep s).
Qed.

Lemma get_keys_empty (keys : list string) : get_keys empty_dict keys = empty_dict.
Proof.
  induction keys as [|k keys IH]; [reflexivity |].
  simpl. now rewrite lookup_empty.
Qed.

Lemma is_dict_true (data : json) :
  is_dict data = true -> exists members, data = JObj members.
Proof. destruct data; try discriminate. now eexists. Qed.

(** What a successful assignment has done at the first key. *)
Lemma set_keys_inv (data data' : json) (k : string) (rest : list string)
    (value : json) :
  set_keys data (k :: rest) value = Some data' ->
  exists members x,
    data = JObj members /\ data' = JObj (<[k := x]> members) /\
    (rest = [] -> x = value) /\
    (rest <> [] ->
     set_keys (default empty_dict (members !! k)) rest value = Some x).
Proof.
  destruct data as [| | | | |members]; try discriminate.
  destruct rest as [|k' rest].
  - intros [= <-]. exists members, value.
    split; [reflexivity |]. split; [reflexivity |]. split; [reflexivity |].
    intros H. now destruct H.
  - intros H. change (set_keys (JObj members) (k :: k' :: rest) value)
      with (child ← set_keys (default empty_dict (members !! k)) (k' :: rest) value;
            Some (JObj (<[k := child]> members))) in H.
    destruct (set_keys (default empty_dict (members !! k)) (k' :: rest) value)
      as [x|] eqn:E; [| discriminate].
    injection H as <-. exists members, x.
    split; [reflexivity |]. split; [reflexivity |]. split; [discriminate |].
    intros _. exact E.
Qed.

Lemma get_keys_insert (members : gmap string json) (k : string) (x : json)
    (keys : list string) :
  get_keys (JObj (<[k := x]> members)) (k :: keys) = get_keys x keys.
Proof. simpl. now rewrite lookup_insert_eq. Qed.

Lemma get_set_keys (keys : list string) (data data' value : json) :
  set_keys data keys value = Some data' -> get_keys data' keys = value.
Proof.
  revert data data'. induction keys as [|k rest IH]; intros data data' H;
    [discriminate |].
  apply set_keys_inv in H as (members & x & -> & -> & Hlast & Hrest).
  rewrite get_keys_insert. destruct rest as [|k' rest].
  - now rewrite Hlast.
  - apply (IH _ _ (Hrest ltac:(discriminate))).
Qed.

(** X14: reading back what was written.  When [set_value_at_path] does
    not raise, [get_value_from_path] gives the value that was set, at the
    same path of the settings it has changed. *)
Theorem get_after_set (data data' value : json) (path : string) :
  set_value_at_path data path value = Some data' ->
  get_value_from_path data' path = value.
Proof.
  unfold set_value_at_path, get_value_from_path. intros H.
  now apply (get_set_keys _ data data' value).
Qed.

Lemma get_after_set_witness :
  get_value_from_path
    (JObj {[ "server" := JObj {[ "pin" := JStr "123456" ]} ]})
    "server.pin" = JStr "123456".
Proof.
  apply (get_after_set empty_dict). vm_compute. reflexivity.
Defined.

Lemma get_set_keys_other (common : list string) (k1 k2 : string)
    (r1 r2 : list string) (data data' value : json) :
  k1 <> k2 ->
  set_keys data (common ++ k1 :: r1) value = Some data' ->
  get_keys data' (common ++ k2 :: r2) = get_keys data (common ++ k2 :: r2).
Proof.
  intros Hne. revert data data'.
  induction common as [|k common IH]; intros data data' H.
  - apply set_keys_inv in H as (members & x & -> & -> & _).
    simpl. now rewrite lookup_insert_ne.
  - apply set_keys_inv in H as (members & x & -> & -> & _ & Hrest).
    change ((k :: common) ++ k2 :: r2) with (k :: common ++ k2 :: r2).
    rewrite get_keys_insert. simpl.
    apply IH, Hrest. now destruct common.
Qed.

(** X15: what an assignment leaves alone.  A path that parts from the
    path of the assignment at some key reads the same before and after:
    the other sections, and the other settings of the same section, are
    not touched. *)
Theorem get_after_set_other (data data' value : json) (path path' : string)
    (common : list string) (k1 k2 : string) (r1 r2 : list string) :
  split "." path = common ++ k1 :: r1 ->
  split "." path' = common ++ k2 :: r2 ->
  k1 <> k2 ->
  set_value_at_path data path value = Some data' ->
  get_value_from_path data' path' = get_value_from_path data path'.
Proof.
  unfold set_value_at_path, get_value_from_path. intros -> -> Hne H.
  now apply (get_set_keys_other common k1 k2 r1 r2 data data' value).
Qed.

Lemma get_after_set_other_witness :
  get_value_from_path
    (JObj {[ "server" := JObj {[ "pin" := JStr "1"; "port" := JNum "7777" ]} ]})
    "server.port"
  = get_value_from_path
      (JObj {[ "server" := JObj {[ "port" := JNum "7777" ]} ]}) "server.port".
Proof.
  apply (get_after_set_other _ _ (JStr "1") "server.pin" "server.port"
           ["server"] "pin" "port" [] []);
    [reflexivity | reflexivity | discriminate | vm_compute; reflexivity].
Defined.

Lemma set_keys_succeeds (keys : list string) (data value : json) :
  is_Some (set_keys data keys value) <->
  keys <> [] /\
  forall before after,
    keys = before ++ after -> after <> [] ->
    is_dict (get_keys data before) = true.
Proof.
  revert data. induction keys as [|k rest IH]; intros data.
  - split; [intros [x Hx]; discriminate | intros [H _]; now destruct H].
  - split.
    + intros [data' H]. split; [discriminate |].
      apply set_keys_inv in H as (members & x & -> & _ & _ & Hrest).
      intros [|k0 before] after Hk Hafter; [reflexivity |].
      injection Hk as <- ->. simpl.
      assert (Hsome : is_Some (set_keys (default empty_dict (members !! k))
                                        (before ++ after) value)).
      { exists x. apply Hrest. now destruct before, after. }
      apply IH in Hsome as [_ Hsome].
      now apply (Hsome before after).
    + intros [_ H].
      destruct (is_dict_true data (H [] (k :: rest) eq_refl ltac:(discriminate)))
        as [members ->].
      destruct rest as [|k' rest]; [now eexists |].
      destruct (proj2 (IH (default empty_dict (members !! k)))) as [x Hx].
      { split; [discriminate |]. intros before after Hk Hafter.
        apply (H (k :: before) after); [now rewrite Hk | exact Hafter]. }
      exists (JObj (<[k := x]> members)).
      change (set_keys (JObj members) (k :: k' :: rest) value)
        with (child ← set_keys (default empty_dict (members !! k)) (k' :: rest) value;
              Some (JObj (<[k := child]> members))).
      now rewrite Hx.
Qed.

(** X16: when an assignment by path succeeds.  [set_value_at_path] raises
    exactly when the settings, or the value under some proper prefix of
    the path, is not a dict: it succeeds if and only if every proper
    prefix of the keys reads as a dict, missing keys reading as the empty
    dict. *)
Theorem set_value_at_path_succeeds (data value : json) (path : string) :
  is_Some (set_value_at_path data path value) <->
  forall before after,
    split "." path = before ++ after -> after <> [] ->
    is_dict (get_keys data before) = true.
Proof.
  unfold set_value_at_path. rewrite set_keys_succeeds. split.
  - now intros [_ H].
  - intros H. split; [apply split_nonempty | exact H].
Qed.

Lemma set_value_at_path_succeeds_witness :
  is_dict (get_keys (JObj {[ "server" := JObj ∅ ]}) ["server"]) = true.
Proof.
  assert (H : is_Some (set_value_at_path (JObj {[ "server" := JObj ∅ ]})
                                         "server.pin" (JStr "1"))).
  { exists (JObj {[ "server" := JObj {[ "pin" := JStr "1" ]} ]}).
    vm_compute. reflexivity. }
  apply (proj1 (set_value_at_path_succeeds _ _ _) H ["server"] ["pin"]);
    [reflexivity | discriminate].
Defined.

Lemma set_keys_twice (keys : list string) (data data1 v1 v2 : json) :
  set_keys data keys v1 = Some data1 ->
  set_keys data1 keys v2 = set_keys data keys v2.
Proof.
  revert data data1. induction keys as [|k rest IH]; intros data data1 H;
    [discriminate |].
  apply set_keys_inv in H as (members & x & -> & -> & Hlast & Hrest).
  destruct rest as [|k' rest].
  - simpl. now rewrite insert_insert_eq.
  - change (set_keys (JObj (<[k:=x]> members)) (k :: k' :: rest) v2)
      with (child ← set_keys (default empty_dict (<[k:=x]> members !! k))
                             (k' :: rest) v2;
            Some (JObj (<[k := child]> (<[k:=x]> members)))).
    change (set_keys (JObj members) (k :: k' :: rest) v2)
      with (child ← set_keys (default empty_dict (members !! k)) (k' :: rest) v2;
            Some (JObj (<[k := child]> members))).
    rewrite lookup_insert_eq. simpl default.
    rewrite (IH _ _ (Hrest ltac:(discriminate))).
    destruct (set_keys (default empty_dict (members !! k)) (k' :: rest) v2);
      simpl; [| reflexivity].
    now rewrite insert_insert_eq.
Qed.

(** X17: the last assignment wins.  Setting a path twice gives the same
    settings as setting it once to the second value. *)
Theorem set_value_at_path_twice (data data1 v1 v2 : json) (path : string) :
  set_value_at_path data path v1 = Some data1 ->
  set_value_at_path data1 path v2 = set_value_at_path data path v2.
Proof.
  unfold set_value_at_path. intros H.
  now apply (set_keys_twice _ data data1 v1 v2).
Qed.

Lemma set_value_at_path_twice_witness :
  set_value_at_path (JObj {[ "live" := JObj {[ "playlistUrl" := JStr "a" ]} ]})
                    "live.playlistUrl" (JStr "b")
  = set_value_at_path empty_dict "live.playlistUrl" (JStr "b").
Proof.
  apply (set_value_at_path_twice empty_dict _ (JStr "a")).
  vm_compute. reflexivity.
Defined.

(** X18: a section that is not there.  When the settings file is missing,
    or is a dict without the first key of the path, the answer to a GET of
    the section is 200 with an empty dict, not 404. *)
Theorem api_get_section_missing :
  (forall section, api_get_section None section = (200, Value empty_dict)) /\
  (forall members section k rest,
     split "." section = k :: rest -> members !! k = None ->
     api_get_section (Some (JObj members)) section = (200, Value empty_dict)).
Proof.
  split.
  - intros section. unfold api_get_section, get_value_from_path. simpl.
    now rewrite get_keys_empty.
  - intros members section k rest Hs Hk.
    unfold api_get_section, get_value_from_path. simpl. rewrite Hs. simpl.
    now rewrite Hk, get_keys_empty.
Qed.

Lemma api_get_section_missing_witness :
  api_get_section (Some (JObj {[ "server" := JObj ∅ ]})) "cache.directory"
  = (200, Value empty_dict).
Proof.
  apply (proj2 api_get_section_missing _ _ "cache" ["directory"]);
    vm_compute; reflexivity.
Defined.

(** X19: a PUT of a section and the GET after it.  A PUT that is answered
    with 200 has stored settings from which a GET of the same section
    answers with the value that was put, unless that value is null, for
    which the answer is 404; a PUT that is answered otherwise leaves the
    file as it was. *)
Theorem api_put_then_get (writable : bool) (file : option json)
    (section : string) (request_json : json) :
  let '(answer, file') := api_put_section writable file section request_json in
  (answer.1 = 200 ->
   api_get_section file' section
   = match request_json with
     | JNull => (404, Failure "Section not found")
     | value => (200, Value value)
     end) /\
  (answer.1 <> 200 -> file' = file).
Proof.
  unfold api_put_section.
  destruct (set_value_at_path (load_settings file) section request_json)
    as [settings|] eqn:E.
  - destruct writable; simpl.
    + split; [intros _ | intros H; now destruct H].
      unfold api_get_section. simpl.
      rewrite (get_after_set _ _ _ _ E). now destruct request_json.
    + split; [discriminate | reflexivity].
  - simpl. split; [discriminate | reflexivity].
Qed.

Lemma api_put_then_get_witness :
  api_get_section (Some (JObj {[ "live" := JObj {[ "playlistUrl" := JNull ]} ]}))
                  "live.playlistUrl"
  = (404, Failure "Section not found").
Proof.
  pose proof (api_put_then_get true None "live.playlistUrl" JNull) as H.
  vm_compute in H. apply (proj1 H). reflexivity.
Defined.
